(** * Auto-Trader: the trailing-stop engine and the trading system, a
    shallow embedding

    The development follows [TrailingStopManager] of [manager_closer.py]:
    the stop-loss arithmetic ([_calculate_stop_loss],
    [_should_update_stop_loss]), one run of [manage_stop_losses] over the
    dictionary of tracked positions, and the file protocol of
    [_load_positions_data] and [_save_positions_data].  Around it come the
    product list and the scan of the live positions
    ([open_positions_fetcher.py]), the signals ([delta_signals.py]) and the
    trading system of [main.py] with the wallet it reads.

    Numbers.  Python floats are read as exact rationals ([Q]); [round(x, 5)]
    is rounding to the nearest multiple of 10^-5, ties to even.  Comparisons
    of prices are the order of [Q]; [x == 0] on a float is [Qeq].  The two
    calculator functions are given a second time over binary64 floats, to
    check single inputs.  The two readings part where the exact value sits
    on a tie of the fifth digit, or within the rounding error of a double of
    one: there the doubles of the source can give the five-digit neighbour
    on the other side, as the worked example on the initial stop of a new
    position shows over binary64.

    The outside world.  The product table, the price lookup, the verdict of
    the exchange on an order and the clock are parameters of a run.  The
    store works on four places of the file system; its file operations can
    fail as a fault plan says, and [json.dump] and [json.load] are parameters.
    Python exceptions are the [Raise] of a small state-and-error monad.
    The responses of the exchange to the requests for products, positions,
    candles and the wallet are values: a failed request, or a status code
    with a parsed body.

    The definitions come first, then the properties. *)

From Stdlib Require Import QArith Qround Qabs ZArith Lia Lqa Bool Floats.
From stdpp Require Import gmap strings list sorting.

Local Open Scope Q_scope.

(** ** Rounding *)

(** Nearest integer, ties to the even neighbour. *)
Definition round_half_even (x : Q) : Z :=
  let f := Qfloor x in
  match Qcompare (x - inject_Z f) (1 # 2) with
  | Lt => f
  | Gt => (f + 1)%Z
  | Eq => if Z.even f then f else (f + 1)%Z
  end.

(** [round(x, 5)] in the rational reading: the nearest multiple of 10^-5 of
    the exact value, as an exact decimal.  The source rounds the value of a
    double and returns the nearest double, [float_round5] below. *)
Definition py_round5 (x : Q) : Q := round_half_even (x * 100000) # 100000.

(** A price with at most five fractional digits. *)
Definition five_digits (x : Q) : Prop := exists k : Z, x == k # 100000.

(** [a > b] and [a < b] on floats, as booleans. *)
Definition Qgtb (a b : Q) : bool := negb (Qle_bool a b).
Definition Qltb (a b : Q) : bool := negb (Qle_bool b a).
Definition Qgeb (a b : Q) : bool := Qle_bool b a.

(** ** The stop-loss calculator *)

Section Calculator.

(** [self.stop_loss_percentage] *)
Variable stop_loss_percentage : Q.

Definition _calculate_stop_loss (current_price entry_price size : Q) : Q :=
  let stop_diff := entry_price * (stop_loss_percentage / 100) in
  if Qgtb size 0
  then py_round5 (current_price - stop_diff)
  else py_round5 (current_price + stop_diff).

Definition _should_update_stop_loss
    (current_price current_stop_loss entry_price size : Q) : bool :=
  let stop_diff := entry_price * (stop_loss_percentage / 100) in
  if Qgtb size 0
  then
    let new_stop_loss := current_price - stop_diff in
    Qgtb new_stop_loss current_stop_loss
  else
    let new_stop_loss := current_price + stop_diff in
    Qltb new_stop_loss current_stop_loss.

End Calculator.

(** ** The calculator over IEEE doubles

    The same two functions on binary64 floats, with the float operations of
    the machine, to check on given inputs that an answer of the rational
    reading is the answer of the floats.  [round(x, 5)] of a float rounds its
    exact value at the fifth decimal, ties to even, and returns the nearest
    double, here the correctly rounded quotient of two integers. *)

(** The exact value of a finite float (0 for the others). *)
Definition float_exact (x : float) : Q :=
  match Prim2SF x with
  | S754_finite sign m e =>
    let v := match e with
             | Z0 => inject_Z (Zpos m)
             | Zpos p => inject_Z (Zpos m * 2 ^ Zpos p)
             | Zneg p => Zpos m # 2 ^ p
             end in
    if sign then - v else v
  | _ => 0
  end.

Definition float_of_Z (k : Z) : float :=
  match k with
  | Z0 => 0%float
  | Zpos _ => PrimFloat.of_uint63 (Uint63.of_Z k)
  | Zneg p => (- PrimFloat.of_uint63 (Uint63.of_Z (Zpos p)))%float
  end.

Definition float_round5 (x : float) : float :=
  (float_of_Z (round_half_even (float_exact x * 100000)) / 100000)%float.

Definition _calculate_stop_loss_float
    (stop_loss_percentage current_price entry_price size : float) : float :=
  let stop_diff := (entry_price * (stop_loss_percentage / 100))%float in
  if (0 <? size)%float
  then float_round5 (current_price - stop_diff)%float
  else float_round5 (current_price + stop_diff)%float.

Definition _should_update_stop_loss_float
    (stop_loss_percentage current_price current_stop_loss entry_price size : float)
  : bool :=
  let stop_diff := (entry_price * (stop_loss_percentage / 100))%float in
  if (0 <? size)%float
  then
    let new_stop_loss := (current_price - stop_diff)%float in
    (current_stop_loss <? new_stop_loss)%float
  else
    let new_stop_loss := (current_price + stop_diff)%float in
    (new_stop_loss <? current_stop_loss)%float.

(** ** Tracked positions and one run of the manager *)

(** One value of [stored_positions]: the dictionary written by the manager
    for a symbol. *)
Record TrackedPosition := {
  entry_price : Q;
  current_price : Q;
  stop_loss : Q;
  size : Q;
  stop_loss_updates : Z;
  last_update : string
}.

(** One element of [get_open_positions()]: the symbol and, of the exchange's
    position dictionary, the two fields the manager reads. *)
Record OpenPosition := {
  product_symbol : string;
  position_entry_price : Q;
  position_size : Q
}.

Inductive Side := buy | sell.

(** The file operations of the position store that can fail for reasons
    outside the program (disk, permissions), in the order of the source. *)
Inductive IOStep :=
| OpenLoad
| MakedirsBackup | OpenBackupSrc | OpenBackupDst | DumpBackup
| MakedirsTemp | OpenTemp | DumpTemp | ReadTemp
| Replace | ReadFinal
| CleanTemp | PruneBackups
| RestoreReplace.

(** The exceptions the store raises or meets: [json.JSONDecodeError], an
    [OSError] of a file operation, and the source's [Exception(message)]. *)
Inductive Exception :=
| JSONDecodeError
| OSError (step : IOStep)
| Error (message : string).

(** What a run does to the outside world, in order: a price lookup with its
    answer; an order with the exchange's verdict, tagged with the symbol whose
    position was being processed when it was placed; and, of the store, the
    logged start and failure of a save attempt, the [time.sleep] between
    attempts and the logged attempt to restore from the [.bak] file. *)
Inductive Event :=
| PriceLookup (symbol : string) (price : Q)
| OrderPlaced (symbol : string) (product_id : Z) (order_size : Q)
              (order_type : string) (side : Side) (success : bool)
| SaveAttempt (number : nat)
| SaveAttemptFailed (number : nat) (e : Exception)
| Slept (seconds : nat)
| RestoreFromBackup.

Definition is_order_for (symbol : string) (ev : Event) : bool :=
  match ev with
  | OrderPlaced s _ _ _ _ _ => bool_decide (s = symbol)
  | _ => false
  end.

(** [stored_pos['current_price'] = current_price] *)
Definition set_current_price (price : Q) (p : TrackedPosition) : TrackedPosition :=
  {| entry_price := entry_price p; current_price := price;
     stop_loss := stop_loss p; size := size p;
     stop_loss_updates := stop_loss_updates p; last_update := last_update p |}.

(** The three assignments of an accepted stop movement. *)
Definition set_stop_loss (new_stop_loss : Q) (time : string) (p : TrackedPosition)
  : TrackedPosition :=
  {| entry_price := entry_price p; current_price := current_price p;
     stop_loss := new_stop_loss; size := size p;
     stop_loss_updates := stop_loss_updates p + 1; last_update := time |}.

Section Manager.

Variable stop_loss_percentage : Q.

(** [self.product_mapping]: symbol to product id. *)
Variable product_mapping : gmap string Z.

(** [self._get_current_price]: the price, or 0 when both channels failed. *)
Variable _get_current_price : string -> Q.

(** What the exchange answers to a submitted order: the response's
    ['success']. *)
Variable exchange_accepts : Z -> Q -> string -> Side -> bool.

(** [datetime.now().strftime(...)] *)
Variable now : string.

(** [DeltaExchange.place_order], reduced to the ['success'] of the
    dictionary it returns: invalid parameters are answered without a
    request, and no exception leaves the function. *)
Definition place_order (product_id : Z) (order_size : Q) (order_type : string)
    (side : Side) : bool :=
  if negb (0 <? product_id)%Z then false
  else if negb (Qgtb order_size 0) then false
  else if negb (bool_decide (order_type = "market_order"%string)
                || bool_decide (order_type = "limit_order"%string)) then false
  else exchange_accepts product_id order_size order_type side.

(** "Close position by placing a sell order" (a buy order for a short): the
    entry is deleted when the response reports success and kept otherwise. *)
Definition close_position (symbol : string) (product_id : Z) (live_size : Q)
    (side : Side) (stored_positions : gmap string TrackedPosition)
    (log : list Event) : gmap string TrackedPosition * list Event :=
  let success := place_order product_id (Qabs live_size) "market_order" side in
  let log := log ++ [OrderPlaced symbol product_id (Qabs live_size)
                       "market_order" side success] in
  if success then (delete symbol stored_positions, log)
  else (stored_positions, log).

(** "Update trailing stop loss": the new stop, the count and the time. *)
Definition update_stop_loss (symbol : string) (live_size price : Q)
    (stored_pos : TrackedPosition)
    (stored_positions : gmap string TrackedPosition)
  : gmap string TrackedPosition :=
  let new_stop_loss :=
    _calculate_stop_loss stop_loss_percentage price (entry_price stored_pos)
      live_size in
  <[symbol := set_stop_loss new_stop_loss now stored_pos]> stored_positions.

(** The body of [for position in current_positions].  [stored_pos] is the
    dictionary held in [stored_positions], so the assignment of its current
    price is an update of the store, made before the stop is tested. *)
Definition process_position
    (st : gmap string TrackedPosition * list Event) (position : OpenPosition)
  : gmap string TrackedPosition * list Event :=
  let '(stored_positions, log) := st in
  let symbol := product_symbol position in
  let live_entry_price := position_entry_price position in
  let live_size := position_size position in
  match product_mapping !! symbol with
  | None => st
  | Some product_id =>
    if (product_id =? 0)%Z then st
    else
      let price := _get_current_price symbol in
      let log := log ++ [PriceLookup symbol price] in
      if Qeq_bool price 0 then (stored_positions, log)
      else
        match stored_positions !! symbol with
        | None =>
          let initial_stop_loss :=
            _calculate_stop_loss stop_loss_percentage live_entry_price
              live_entry_price live_size in
          let position_data :=
            {| entry_price := live_entry_price; current_price := price;
               stop_loss := initial_stop_loss; size := live_size;
               stop_loss_updates := 0; last_update := now |} in
          (<[symbol := position_data]> stored_positions, log)
        | Some stored_pos0 =>
          let stored_pos := set_current_price price stored_pos0 in
          let stored_positions := <[symbol := stored_pos]> stored_positions in
          if Qgtb live_size 0 then
            if Qle_bool price (stop_loss stored_pos) then
              close_position symbol product_id live_size sell stored_positions log
            else if _should_update_stop_loss stop_loss_percentage price
                      (stop_loss stored_pos) (entry_price stored_pos) live_size
            then
              (update_stop_loss symbol live_size price stored_pos stored_positions,
               log)
            else (stored_positions, log)
          else
            if Qgeb price (stop_loss stored_pos) then
              close_position symbol product_id live_size buy stored_positions log
            else if _should_update_stop_loss stop_loss_percentage price
                      (stop_loss stored_pos) (entry_price stored_pos) live_size
            then
              (update_stop_loss symbol live_size price stored_pos stored_positions,
               log)
            else (stored_positions, log)
        end
  end.

(** [for symbol in closed_positions: del stored_positions[symbol]] *)
Definition remove_closed_positions
    (stored_positions : gmap string TrackedPosition) (current_symbols : gset string)
  : gmap string TrackedPosition :=
  let closed_positions := dom stored_positions ∖ current_symbols in
  set_fold (fun symbol m => delete symbol m) stored_positions closed_positions.

(** [manage_stop_losses] between the load and the save: the loop over the
    live positions, then the removal of the symbols no longer live.  The
    result is the dictionary handed to [_save_positions_data] and the
    events of the run. *)
Definition reconcile_positions
    (stored_positions : gmap string TrackedPosition)
    (current_positions : list OpenPosition)
  : gmap string TrackedPosition * list Event :=
  let current_symbols : gset string :=
    list_to_set (map product_symbol current_positions) in
  let '(stored_positions, log) :=
    fold_left process_position current_positions (stored_positions, []) in
  (remove_closed_positions stored_positions current_symbols, log).

(** What the loop body does to the entry of the position's own symbol and
    which events it adds, as a function of that entry alone; the loop body
    is shown below to act on the dictionary through it. *)
Definition entry_step (position : OpenPosition) (entry : option TrackedPosition)
  : option TrackedPosition * list Event :=
  let symbol := product_symbol position in
  let live_size := position_size position in
  match product_mapping !! symbol with
  | None => (entry, [])
  | Some product_id =>
    if (product_id =? 0)%Z then (entry, [])
    else
      let price := _get_current_price symbol in
      if Qeq_bool price 0 then (entry, [PriceLookup symbol price])
      else
        match entry with
        | None =>
          (Some {| entry_price := position_entry_price position;
                   current_price := price;
                   stop_loss :=
                     _calculate_stop_loss stop_loss_percentage
                       (position_entry_price position)
                       (position_entry_price position) live_size;
                   size := live_size;
                   stop_loss_updates := 0; last_update := now |},
           [PriceLookup symbol price])
        | Some stored_pos0 =>
          let stored_pos := set_current_price price stored_pos0 in
          let is_long := Qgtb live_size 0 in
          let hit :=
            if is_long then Qle_bool price (stop_loss stored_pos)
            else Qgeb price (stop_loss stored_pos) in
          if hit then
            let side := if is_long then sell else buy in
            let success :=
              place_order product_id (Qabs live_size) "market_order" side in
            (if success then None else Some stored_pos,
             [PriceLookup symbol price;
              OrderPlaced symbol product_id (Qabs live_size) "market_order"
                side success])
          else if _should_update_stop_loss stop_loss_percentage price
                    (stop_loss stored_pos) (entry_price stored_pos) live_size
          then
            (Some (set_stop_loss
                     (_calculate_stop_loss stop_loss_percentage price
                        (entry_price stored_pos) live_size) now stored_pos),
             [PriceLookup symbol price])
          else (Some stored_pos, [PriceLookup symbol price])
        end
  end.

End Manager.

(** ** The position store *)

(** The files the store touches, under the script's directory:
    [positions_data.json], [positions_data.json.bak], and the entries of
    [.backup/] and [.temp/] by file name. *)
Record FileSystem := {
  positions_file : option string;
  positions_file_bak : option string;
  backup_dir : gmap string string;
  temp_dir : gmap string string
}.

Record World := {
  files : FileSystem;
  events : list Event
}.

Inductive Result (A : Type) :=
| Return (a : A)
| Raise (e : Exception).
Arguments Return {A} a.
Arguments Raise {A} e.

(** A computation that reads and writes the world and may raise. *)
Definition io (A : Type) : Type := World -> Result A * World.

Definition ret {A} (a : A) : io A := fun w => (Return a, w).

Definition bind {A B} (c : io A) (k : A -> io B) : io B :=
  fun w =>
    match c w with
    | (Return a, w') => k a w'
    | (Raise e, w') => (Raise e, w')
    end.

Definition raise {A} (e : Exception) : io A := fun w => (Raise e, w).

(** [try: c  except Exception as e: h e] *)
Definition try_except {A} (c : io A) (h : Exception -> io A) : io A :=
  fun w =>
    match c w with
    | (Return a, w') => (Return a, w')
    | (Raise e, w') => h e w'
    end.

Notation "'do' x <- c ; k" := (bind c (fun x => k))
  (at level 10, x name, c at level 100, k at level 200).
Notation "'run' c ; k" := (bind c (fun _ => k))
  (at level 10, c at level 100, k at level 200).

Definition get_files : io FileSystem := fun w => (Return (files w), w).

Definition put_files (fs : FileSystem) : io unit :=
  fun w => (Return tt, {| files := fs; events := events w |}).

Definition emit (ev : Event) : io unit :=
  fun w => (Return tt, {| files := files w; events := events w ++ [ev] |}).

Definition emit_all (evs : list Event) : io unit :=
  fun w => (Return tt, {| files := files w; events := events w ++ evs |}).

Definition write_backup (name content : string) : io unit :=
  do fs <- get_files ;
  put_files {| positions_file := positions_file fs;
               positions_file_bak := positions_file_bak fs;
               backup_dir := <[name := content]> (backup_dir fs);
               temp_dir := temp_dir fs |}.

Definition write_temp (name content : string) : io unit :=
  do fs <- get_files ;
  put_files {| positions_file := positions_file fs;
               positions_file_bak := positions_file_bak fs;
               backup_dir := backup_dir fs;
               temp_dir := <[name := content]> (temp_dir fs) |}.

(** [os.replace(temp_file, self.positions_file)] *)
Definition replace_temp (name content : string) : io unit :=
  do fs <- get_files ;
  put_files {| positions_file := Some content;
               positions_file_bak := positions_file_bak fs;
               backup_dir := backup_dir fs;
               temp_dir := delete name (temp_dir fs) |}.

(** [os.replace(f"{self.positions_file}.bak", self.positions_file)] *)
Definition replace_bak (content : string) : io unit :=
  do fs <- get_files ;
  put_files {| positions_file := Some content;
               positions_file_bak := None;
               backup_dir := backup_dir fs;
               temp_dir := temp_dir fs |}.

Definition string_le (a b : string) : Prop := String.leb a b = true.

#[local] Instance string_le_dec a b : Decision (string_le a b).
Proof. unfold string_le. apply _. Defined.

(** Keep only the last five backups. *)
Definition prune_backups (dir : gmap string string) : gmap string string :=
  let backups :=
    merge_sort string_le
      (filter (fun f => String.prefix "positions_data_" f = true)
              (elements (dom dir))) in
  if decide (5 < length backups)%nat
  then foldr (fun old_backup d => delete old_backup d) dir
         (take (length backups - 5) backups)
  else dir.

Definition MAX_RETRIES : nat := 3.

Section Store.

(** The document and its JSON form: [json.dump(_, f, indent=4)] and
    [json.load], the latter failing with [JSONDecodeError]. *)
Context {Data : Type} `{EqDecision Data}.
Variable json_dump : Data -> string.
Variable json_load : string -> option Data.

(** [{"positions": {}}] *)
Variable empty_positions_data : Data.

(** Which file operation of which save attempt fails (attempts count from
    0; the load is attempt 0), and what a write that fails midway leaves
    in the file. *)
Variable fault : nat -> IOStep -> bool.
Variable torn : string -> string.

(** The file names the clock gives to the backup and to the temporary file
    of an attempt. *)
Variable backup_name : nat -> string.
Variable temp_name : nat -> string.

Definition check_step (attempt : nat) (step : IOStep) : io unit :=
  if fault attempt step then raise (OSError step) else ret tt.

Definition json_load_io (content : string) : io Data :=
  match json_load content with
  | Some data => ret data
  | None => raise JSONDecodeError
  end.

(** [json.dump(data, f)] into a file just opened for writing. *)
Definition dump_to (write : string -> io unit) (attempt : nat) (step : IOStep)
    (content : string) : io unit :=
  if fault attempt step
  then (run write (torn content) ; raise (OSError step))
  else write content.

Definition _load_positions_data : io Data :=
  try_except
    (do fs <- get_files ;
     match positions_file fs with
     | Some content =>
       run check_step 0 OpenLoad ;
       try_except (json_load_io content)
         (fun e =>
            match e with
            | JSONDecodeError => ret empty_positions_data
            | _ => raise e
            end)
     | None => ret empty_positions_data
     end)
    (fun _ => ret empty_positions_data).

(** "Create timestamped backup if file exists": the existing file is parsed
    and written out again. *)
Definition backup_existing (retry_count : nat) : io unit :=
  do fs <- get_files ;
  match positions_file fs with
  | Some content =>
    let backup_file := backup_name retry_count in
    run check_step retry_count OpenBackupSrc ;
    run check_step retry_count OpenBackupDst ;
    run write_backup backup_file "" ;
    do old <- json_load_io content ;
    dump_to (write_backup backup_file) retry_count DumpBackup (json_dump old)
  | None => ret tt
  end.

(** "Clean up temp directory" and "Keep only last 5 backups"; a failure of
    either is logged and ignored. *)
Definition clean_up (retry_count : nat) : io unit :=
  do fs <- get_files ;
  run (if fault retry_count CleanTemp then ret tt
       else put_files {| positions_file := positions_file fs;
                         positions_file_bak := positions_file_bak fs;
                         backup_dir := backup_dir fs;
                         temp_dir := ∅ |}) ;
  do fs <- get_files ;
  if fault retry_count PruneBackups then ret tt
  else put_files {| positions_file := positions_file fs;
                    positions_file_bak := positions_file_bak fs;
                    backup_dir := prune_backups (backup_dir fs);
                    temp_dir := temp_dir fs |}.

Definition verify (content : string) (data : Data) (message : string) : io unit :=
  do written_data <- json_load_io content ;
  if decide (written_data = data) then ret tt else raise (Error message).

(** The body of the [try] of one save attempt. *)
Definition save_attempt (retry_count : nat) (data : Data) : io unit :=
  run emit (SaveAttempt (retry_count + 1)) ;
  run check_step retry_count MakedirsBackup ;
  run backup_existing retry_count ;
  run check_step retry_count MakedirsTemp ;
  let temp_file := temp_name retry_count in
  run check_step retry_count OpenTemp ;
  run write_temp temp_file "" ;
  run dump_to (write_temp temp_file) retry_count DumpTemp (json_dump data) ;
  do fs <- get_files ;
  match temp_dir fs !! temp_file with
  | None => raise (Error "Failed to create temporary file")
  | Some content =>
    run check_step retry_count ReadTemp ;
    run verify content data "Data verification failed for temp file" ;
    run check_step retry_count Replace ;
    run replace_temp temp_file content ;
    run check_step retry_count ReadFinal ;
    run verify content data "Final data verification failed" ;
    clean_up retry_count
  end.

(** "On last retry, try to restore from backup". *)
Definition restore_from_bak (retry_count : nat) : io unit :=
  do fs <- get_files ;
  match positions_file_bak fs with
  | Some content =>
    if decide (retry_count = MAX_RETRIES)
    then try_except
           (run emit RestoreFromBackup ;
            run check_step (retry_count - 1) RestoreReplace ;
            replace_bak content)
           (fun _ => ret tt)
    else ret tt
  | None => ret tt
  end.

(** The [except] of one save attempt; [continue_loop] is the rest of the
    [while]. *)
Definition save_failed (retry_count : nat) (e : Exception)
    (continue_loop : nat -> io unit) : io unit :=
  let retry_count := S retry_count in
  run emit (SaveAttemptFailed retry_count e) ;
  run restore_from_bak retry_count ;
  if decide (retry_count < MAX_RETRIES)%nat
  then (run emit (Slept 1) ; continue_loop retry_count)
  else raise (Error "Failed to save positions data after all retries").

(** [while retry_count < MAX_RETRIES], with [remaining] the number of
    iterations the condition still allows. *)
Fixpoint save_loop (remaining retry_count : nat) (data : Data) : io unit :=
  match remaining with
  | O => ret tt
  | S remaining' =>
    try_except (save_attempt retry_count data)
      (fun e => save_failed retry_count e
                  (fun retry_count' => save_loop remaining' retry_count' data))
  end.

Definition _save_positions_data (data : Data) : io unit :=
  save_loop MAX_RETRIES 0 data.

End Store.

(** ** A run of the manager *)

(** The persisted document, [{"positions": {...}}]. *)
Record PositionsData := {
  positions : gmap string TrackedPosition
}.

#[local] Instance Q_eq_dec : EqDecision Q.
Proof. solve_decision. Defined.

#[local] Instance TrackedPosition_eq_dec : EqDecision TrackedPosition.
Proof. solve_decision. Defined.

#[local] Instance PositionsData_eq_dec : EqDecision PositionsData.
Proof. solve_decision. Defined.

Section Run.

Variable stop_loss_percentage : Q.
Variable product_mapping : gmap string Z.
Variable _get_current_price : string -> Q.
Variable exchange_accepts : Z -> Q -> string -> Side -> bool.
Variable now : string.
Variable json_dump : PositionsData -> string.
Variable json_load : string -> option PositionsData.
Variable fault : nat -> IOStep -> bool.
Variable torn : string -> string.
Variable backup_name : nat -> string.
Variable temp_name : nat -> string.

(** What [self.positions_fetcher.get_open_positions()] returns. *)
Variable current_positions : list OpenPosition.

(** [product_mapping] is the mapping after the fetch at the head of the
    function; with none the run ends before the store is read.  Any
    exception, the failure of the save included, ends the run in the
    outer handler. *)
Definition manage_stop_losses : io unit :=
  try_except
    (if decide (product_mapping = ∅) then ret tt
     else
       do positions_data <-
         _load_positions_data json_load {| positions := ∅ |} fault ;
       let stored_positions := positions positions_data in
       let '(stored_positions, log) :=
         reconcile_positions stop_loss_percentage product_mapping
           _get_current_price exchange_accepts now stored_positions
           current_positions in
       run emit_all log ;
       _save_positions_data json_dump json_load fault torn backup_name
         temp_name {| positions := stored_positions |})
    (fun _ => ret tt).

End Run.

(** ** Predicates used in the statements *)

(** No order was placed while the position of [symbol] was processed. *)
Definition no_order_for (symbol : string) (log : list Event) : Prop :=
  forall product_id order_size order_type side success,
    ~ In (OrderPlaced symbol product_id order_size order_type side success) log.

(** Every stored stop has at most five fractional digits. *)
Definition stops_five_digits (m : gmap string TrackedPosition) : Prop :=
  forall s e, m !! s = Some e -> five_digits (stop_loss e).

(** ** Sample data

    A product table, two stored entries and the live positions used in the
    worked runs below. *)

Definition sample_mapping : gmap string Z :=
  {[ "BTCUSD"%string := 27%Z; "ETHUSD"%string := 3136%Z ]}.

(** A long entry opened at 100 whose stop stands at 98. *)
Definition sample_long_entry : TrackedPosition :=
  {| entry_price := 100; current_price := 105; stop_loss := 98; size := 1;
     stop_loss_updates := 0; last_update := "2025-03-18 05:00:00" |}.

Definition sample_store : gmap string TrackedPosition :=
  {[ "BTCUSD"%string := sample_long_entry ]}.

Definition sample_long_position : OpenPosition :=
  {| product_symbol := "BTCUSD"; position_entry_price := 100; position_size := 1 |}.

(** The same symbol reported short by the exchange. *)
Definition sample_flipped_position : OpenPosition :=
  {| product_symbol := "BTCUSD"; position_entry_price := 100;
     position_size := -1 |}.

Definition sample_eth_position : OpenPosition :=
  {| product_symbol := "ETHUSD"; position_entry_price := 50; position_size := -2 |}.

(** A long entry whose stop has already been moved up to 100. *)
Definition sample_trailed_entry : TrackedPosition :=
  {| entry_price := 100; current_price := 102; stop_loss := 100; size := 1;
     stop_loss_updates := 1; last_update := "2025-03-18 05:00:00" |}.

(** Six backups, the oldest first. *)
Definition sample_backups : gmap string string :=
  {[ "positions_data_20250311_120000.json"%string := "{1}"%string;
     "positions_data_20250312_120000.json"%string := "{2}"%string;
     "positions_data_20250313_120000.json"%string := "{3}"%string;
     "positions_data_20250314_120000.json"%string := "{4}"%string;
     "positions_data_20250315_120000.json"%string := "{5}"%string;
     "positions_data_20250316_120000.json"%string := "{6}"%string ]}.

Definition price_of (price : Q) : string -> Q := fun _ => price.

Definition exchange_rejects : Z -> Q -> string -> Side -> bool :=
  fun _ _ _ _ => false.

Definition exchange_fills : Z -> Q -> string -> Side -> bool :=
  fun _ _ _ _ => true.

Definition sample_now : string := "2025-03-18 05:28:18".

(** A document type that is its own JSON text: a text that opens with a
    brace parses, to itself, and any other text is not valid JSON. *)
Definition text_dump (document : string) : string := document.

Definition text_load (content : string) : option string :=
  if String.prefix "{" content then Some content else None.

Definition no_fault : nat -> IOStep -> bool := fun _ _ => false.

(** Every write of the temporary file fails. *)
Definition write_fault : nat -> IOStep -> bool :=
  fun _ step => match step with DumpTemp => true | _ => false end.

Definition torn_empty : string -> string := fun _ => ""%string.

Definition sample_backup_name (attempt : nat) : string :=
  match attempt with
  | O => "positions_data_20250318_052818.json"
  | S O => "positions_data_20250318_052819.json"
  | _ => "positions_data_20250318_052820.json"
  end.

Definition sample_temp_name (attempt : nat) : string :=
  match attempt with
  | O => "positions_data_1742275698.json"
  | S O => "positions_data_1742275699.json"
  | _ => "positions_data_1742275700.json"
  end.

(** A valid snapshot with one earlier backup and no [.bak] file. *)
Definition sample_files : FileSystem :=
  {| positions_file := Some "{old}"%string;
     positions_file_bak := None;
     backup_dir := {[ "positions_data_20250317_120000.json"%string := "{older}"%string ]};
     temp_dir := ∅ |}.

(** A snapshot file that is not valid JSON. *)
Definition corrupt_files : FileSystem :=
  {| positions_file := Some "garbage"%string;
     positions_file_bak := None;
     backup_dir := ∅;
     temp_dir := ∅ |}.

(** The same with a [.bak] file beside it. *)
Definition corrupt_files_with_bak : FileSystem :=
  {| positions_file := Some "garbage"%string;
     positions_file_bak := Some "{bak}"%string;
     backup_dir := ∅;
     temp_dir := ∅ |}.

Definition start (fs : FileSystem) : World := {| files := fs; events := [] |}.

(** A save of a new document over [sample_files] during which every write
    of the temporary file fails. *)
Definition failed_save : Result unit * World :=
  _save_positions_data text_dump text_load write_fault torn_empty
    sample_backup_name sample_temp_name "{new}"%string (start sample_files).

(** A save over the corrupt file that has a [.bak] file beside it. *)
Definition save_over_corrupt_with_bak : Result unit * World :=
  _save_positions_data text_dump text_load no_fault torn_empty
    sample_backup_name sample_temp_name "{new}"%string
    (start corrupt_files_with_bak).

(** An exception of the backup step of the attempt numbered [attempt]: the
    [JSONDecodeError] of re-parsing the existing file, or the failure of a
    file operation up to that point. *)
Definition backup_failure (fault : nat -> IOStep -> bool) (attempt : nat)
    (e : Exception) : Prop :=
  e = JSONDecodeError \/
  exists step,
    (step = MakedirsBackup \/ step = OpenBackupSrc \/ step = OpenBackupDst) /\
    fault attempt step = true /\ e = OSError step.

(** ** The backups that pruning sees *)

(** [sorted([f for f in os.listdir(backup_dir)
             if f.startswith('positions_data_')])] *)
Definition list_backups (dir : gmap string string) : list string :=
  merge_sort string_le
    (filter (fun f => String.prefix "positions_data_" f = true)
            (elements (dom dir))).

(** ** The exchange's answers

    What [requests.get] and [response.json()] hand to the code: the request
    may fail (timeout, connection error), and the body may fail to parse or
    lack what the code indexes; both end in the function's [except]. *)
Inductive HttpResponse (Body : Type) :=
| RequestFails
| Response (status_code : Z) (body : option Body).
Arguments RequestFails {Body}.
Arguments Response {Body} status_code body.

(** ** The product list (open_positions_fetcher.py, delta_signals.py) *)

(** [product.get('symbol', '')] of an element of the product list: the key
    is missing, or holds something that is not a string ([null], a number),
    or holds a string. *)
Inductive SymbolField :=
| SymbolMissing
| SymbolNotStr
| SymbolStr (s : string).

(** An element of [data['result']]: a dictionary with its ['id'] and
    ['symbol'], or something else. *)
Inductive RawProduct :=
| NotADict
| ProductDict (raw_id : option Z) (raw_symbol : SymbolField).

(** [{'id': ..., 'symbol': ...}] *)
Record Product := {
  prod_id : option Z;
  prod_symbol : string
}.

(** The body of [/v2/products]: the truth of ['success'], and the list under
    ['result'], [None] when the key is missing. *)
Record ProductsBody := {
  products_success : bool;
  products_result : option (list RawProduct)
}.

(** [s.endswith(suffix)] *)
Fixpoint endswith (s suffix : string) : bool :=
  String.eqb s suffix
  || match s with
     | EmptyString => false
     | String _ s' => endswith s' suffix
     end.

(** The list comprehension over [data['result']]; [None] is the
    [AttributeError] of [endswith] on a symbol that is not a string. *)
Fixpoint usd_products (result : list RawProduct) : option (list Product) :=
  match result with
  | [] => Some []
  | NotADict :: rest => usd_products rest
  | ProductDict _ SymbolMissing :: rest => usd_products rest
  | ProductDict _ SymbolNotStr :: _ => None
  | ProductDict raw_id (SymbolStr s) :: rest =>
    match usd_products rest with
    | Some products =>
      Some (if endswith s "USD"
            then {| prod_id := raw_id; prod_symbol := s |} :: products
            else products)
    | None => None
    end
  end.

(** The part of [_get_all_usd_products] the two classes share, from the
    parsed body on. *)
Definition usd_products_of_body (data : ProductsBody) : list Product :=
  if negb (products_success data) then []
  else match products_result data with
       | Some result => default [] (usd_products result)
       | None => []
       end.

(** [OpenPositionsFetcher._get_all_usd_products]: every failure gives the
    empty list; the status code is not looked at. *)
Definition _get_all_usd_products (response : HttpResponse ProductsBody)
  : list Product :=
  match response with
  | RequestFails => []
  | Response _ None => []
  | Response _ (Some data) => usd_products_of_body data
  end.

(** [DeltaSignals._get_all_usd_products]: the same behind a test of the
    status code. *)
Definition _get_all_usd_products_signals (response : HttpResponse ProductsBody)
  : list Product :=
  match response with
  | RequestFails => []
  | Response status_code body =>
    if negb (status_code =? 200)%Z then []
    else match body with
         | Some data => usd_products_of_body data
         | None => []
         end
  end.

(** [TrailingStopManager.get_product_mapping] and
    [DeltaTradingSystem.get_product_mapping], from the product list on: the
    dictionary comprehension, in which a later product replaces an earlier
    one of the same symbol.  An id may be [None]. *)
Definition get_product_mapping (products : list Product) : gmap string (option Z) :=
  fold_left (fun mapping product =>
               <[prod_symbol product := prod_id product]> mapping)
    products ∅.

(** ** The live positions (open_positions_fetcher.py) *)

(** The exchange's position dictionary, with the two keys that are read;
    [None] is a missing key. *)
Record RawPosition := {
  raw_size : option Q;
  raw_entry_price : option Q
}.

(** [position_result] is [None] when ['result'] is missing, [null] or
    empty. *)
Record PositionBody := {
  position_success : bool;
  position_result : option RawPosition
}.

(** One turn of the loop of [get_open_positions]: the position of a product,
    when the exchange reports one of a size that is not 0.  The entry price
    and the size are given as the manager reads them, a missing key as 0. *)
Definition open_position_of (product : Product)
    (response : HttpResponse PositionBody) : option OpenPosition :=
  match response with
  | Response _ (Some position_data) =>
    if position_success position_data then
      match position_result position_data with
      | Some position =>
        if Qeq_bool (default 0 (raw_size position)) 0 then None
        else Some {| product_symbol := prod_symbol product;
                     position_entry_price :=
                       default 0 (raw_entry_price position);
                     position_size := default 0 (raw_size position) |}
      | None => None
      end
    else None
  | _ => None
  end.

(** [get_open_positions]; [positions_api] answers
    [/v2/positions?product_id=...]. *)
Definition get_open_positions (products_response : HttpResponse ProductsBody)
    (positions_api : option Z -> HttpResponse PositionBody) : list OpenPosition :=
  let products_list := _get_all_usd_products products_response in
  omap (fun product => open_position_of product (positions_api (prod_id product)))
    products_list.

(** ** Signals (delta_signals.py) *)

Inductive Direction := LONG | SHORT.

Record Candle := {
  high : Q;
  low : Q;
  close : Q;
  open_price : Q
}.

(** The body of [/v2/history/candles]: the truth of ['success'] and the
    list under ['result'], empty when the key is missing.  A body whose
    first candle lacks a price or holds one that is not a number is a body
    that cannot be used ([None] in the response).  The prices are exact
    rationals, as everywhere. *)
Record CandlesBody := {
  candles_success : bool;
  candles_result : list Candle
}.

(** [_get_signal], from the response on. *)
Definition _get_signal (symbol : string) (response : HttpResponse CandlesBody)
  : option (string * Direction) :=
  match response with
  | RequestFails => None
  | Response status_code body =>
    if negb (status_code =? 200)%Z then None
    else
      match body with
      | None => None
      | Some data =>
        if negb (candles_success data) then None
        else
          match candles_result data with
          | [] => None
          | latest_candle :: _ =>
            if existsb (fun price => Qle_bool price 0)
                 [high latest_candle; low latest_candle; close latest_candle;
                  open_price latest_candle]
            then None
            else
              let hl_range_percent :=
                ((high latest_candle - low latest_candle) / low latest_candle)
                * 100 in
              if Qle_bool 1 hl_range_percent
              then Some (symbol,
                         if Qgtb (close latest_candle) (open_price latest_candle)
                         then LONG else SHORT)
              else None
          end
      end
  end.

(** [_process_batch]: [executor.map] gives the results in the order of the
    symbols. *)
Definition _process_batch (candles_api : string -> HttpResponse CandlesBody)
    (symbols : list Product) : list (string * Direction) :=
  omap (fun x => _get_signal (prod_symbol x) (candles_api (prod_symbol x)))
    symbols.

(** The settings of [__init__], by environment. *)
Definition batch_size (is_aws : bool) : nat := if is_aws then 3 else 5.
Definition batch_delay (is_aws : bool) : nat := if is_aws then 2 else 1.

(** [range(0, stop, step)] for a positive step. *)
Definition range_step (stop step : nat) : list nat :=
  map (fun k => (k * step)%nat) (seq 0 ((stop + step - 1) / step)).

(** [get_active_signals]: the signals, and the sleeps between batches. *)
Definition get_active_signals (is_aws : bool)
    (products_response : HttpResponse ProductsBody)
    (candles_api : string -> HttpResponse CandlesBody)
  : list (string * Direction) * list Event :=
  let product_list := _get_all_usd_products_signals products_response in
  let total_symbols := length product_list in
  fold_left
    (fun '(all_signals, log) i =>
       let batch := take (batch_size is_aws) (drop i product_list) in
       let signals := _process_batch candles_api batch in
       (all_signals ++ signals,
        if (i + batch_size is_aws <? total_symbols)%nat
        then log ++ [Slept (batch_delay is_aws)] else log))
    (range_step total_symbols (batch_size is_aws)) ([], []).

(** ** The trading system (main.py) *)

(** An element of [wallet_data['result']]; [None] is a missing key. *)
Record WalletEntry := {
  balance : option Q;
  available_balance : option Q
}.

(** [get_usd_balance] and [get_usd_available_balance] over the body of
    [/v2/wallet/balances], given as the list under ['result'] (empty when
    the key is missing); [None] is an exception.  The status code is not
    looked at. *)
Definition get_usd_balance (response : HttpResponse (list WalletEntry))
  : option Q :=
  match response with
  | Response _ (Some (entry :: _)) => balance entry
  | Response _ (Some []) => Some 0
  | _ => None
  end.

Definition get_usd_available_balance (response : HttpResponse (list WalletEntry))
  : option Q :=
  match response with
  | Response _ (Some (entry :: _)) => available_balance entry
  | Response _ (Some []) => Some 0
  | _ => None
  end.

(** [get_available_balance]; the two calls of the wallet are two requests. *)
Definition get_available_balance
    (balance_response available_response : HttpResponse (list WalletEntry)) : Q :=
  match get_usd_balance balance_response with
  | None => 0
  | Some total_balance =>
    match get_usd_available_balance available_response with
    | None => 0
    | Some available =>
      let max_trading_balance := total_balance * (5 # 10) in
      let used_balance := total_balance - available in
      let remaining_trading_balance := max_trading_balance - used_balance in
      if Qgtb remaining_trading_balance 0 then remaining_trading_balance else 0
    end
  end.

Record Opportunity := {
  opp_symbol : string;
  opp_direction : Direction;
  margin_required : Q
}.

(** [margin_lookup]: a later entry replaces an earlier one of the same
    symbol.  The margins are the numbers read back from the dollar
    strings. *)
Definition margin_lookup (margin_requirements : list (string * Q))
  : gmap string Q :=
  fold_left (fun lookup item => <[item.1 := item.2]> lookup)
    margin_requirements ∅.

(** [get_trading_opportunities]; a symbol without a margin has the margin
    [float('inf')] and is never taken. *)
Definition get_trading_opportunities (trading_balance : Q)
    (signals : list (string * Direction))
    (margin_requirements : option (list (string * Q))) : list Opportunity :=
  match signals with
  | [] => []
  | _ =>
    match margin_requirements with
    | None => []
    | Some [] => []
    | Some requirements =>
      omap (fun signal =>
              match margin_lookup requirements !! signal.1 with
              | Some margin =>
                if Qle_bool margin trading_balance
                then Some {| opp_symbol := signal.1; opp_direction := signal.2;
                             margin_required := margin |}
                else None
              | None => None
              end)
        signals
    end
  end.

Definition direction_name (direction : Direction) : string :=
  match direction with
  | LONG => "LONG"
  | SHORT => "SHORT"
  end.

(** [f"{symbol}_{direction}"] *)
Definition position_key (symbol : string) (direction : Direction) : string :=
  (symbol ++ "_" ++ direction_name direction)%string.

(** [get_existing_positions], from the fetched positions on. *)
Definition get_existing_positions (positions : list OpenPosition)
  : gmap string Direction :=
  fold_left
    (fun position_map position =>
       let size := position_size position in
       if Qeq_bool size 0 then position_map
       else
         let direction := if Qgtb size 0 then LONG else SHORT in
         <[position_key (product_symbol position) direction := direction]>
           position_map)
    positions ∅.

(** "Determine size based on symbol" *)
Definition order_size_of (symbol : string) : Q :=
  if decide (symbol = "AAVEUSD"%string) then 2
  else if decide (symbol = "SOLUSD"%string) then 4
  else 6.

Definition side_of (direction : Direction) : Side :=
  match direction with
  | LONG => buy
  | SHORT => sell
  end.

(** The loop over the filtered opportunities: the order of one of them, if
    its symbol has a product id. *)
Definition place_opportunity (product_mapping : gmap string (option Z))
    (exchange_accepts : Z -> Q -> string -> Side -> bool) (opp : Opportunity)
  : option Event :=
  let symbol := opp_symbol opp in
  match product_mapping !! symbol with
  | Some (Some product_id) =>
    if (product_id =? 0)%Z then None
    else
      let size := order_size_of symbol in
      let side := side_of (opp_direction opp) in
      Some (OrderPlaced symbol product_id size "market_order" side
              (place_order exchange_accepts product_id size "market_order" side))
  | _ => None
  end.

(** [execute_trades]: the orders it places, in order. *)
Definition execute_trades (product_mapping : gmap string (option Z))
    (positions : list OpenPosition)
    (exchange_accepts : Z -> Q -> string -> Side -> bool)
    (opportunities : list Opportunity) : list Event :=
  if decide (product_mapping = ∅) then []
  else
    let existing_positions := get_existing_positions positions in
    let filtered_opportunities :=
      filter (fun opp =>
                existing_positions
                  !! position_key (opp_symbol opp) (opp_direction opp) = None)
        opportunities in
    omap (place_opportunity product_mapping exchange_accepts)
      filtered_opportunities.

(** [DeltaTradingSystem.run]: the orders of one execution of the trading
    system. *)
Definition trading_run (balance_response available_response : HttpResponse (list WalletEntry))
    (signals : list (string * Direction))
    (margin_requirements : option (list (string * Q)))
    (product_mapping : gmap string (option Z))
    (positions : list OpenPosition)
    (exchange_accepts : Z -> Q -> string -> Side -> bool) : list Event :=
  let trading_balance :=
    get_available_balance balance_response available_response in
  if Qle_bool trading_balance 0 then []
  else
    match get_trading_opportunities trading_balance signals margin_requirements with
    | [] => []
    | opportunities =>
      execute_trades product_mapping positions exchange_accepts opportunities
    end.

(** ** Sample answers of the exchange

    A product list, candles, a wallet, margins and a codec of the snapshot,
    for the worked runs of the fetcher, the signals, the trading system and
    the whole cycle. *)

Definition sample_products : list RawProduct :=
  [ProductDict (Some 27%Z) (SymbolStr "BTCUSD");
   NotADict;
   ProductDict (Some 9%Z) (SymbolStr "BTCUSDT");
   ProductDict (Some 3136%Z) (SymbolStr "ETHUSD")].

Definition sample_products_body : ProductsBody :=
  {| products_success := true; products_result := Some sample_products |}.

Definition sample_products_response : HttpResponse ProductsBody :=
  Response 200 (Some sample_products_body).

(** The same list followed by a product whose symbol is [null]. *)
Definition malformed_products_body : ProductsBody :=
  {| products_success := true;
     products_result :=
       Some (sample_products ++ [ProductDict (Some 5%Z) SymbolNotStr]) |}.

(** BTCUSD ranged from 100 to 102 and closed above its open; no candle is
    to be had for any other symbol. *)
Definition sample_candles_api (symbol : string) : HttpResponse CandlesBody :=
  if decide (symbol = "BTCUSD"%string)
  then Response 200
         (Some {| candles_success := true;
                  candles_result :=
                    [{| high := 102; low := 100; close := 1015 # 10;
                        open_price := 1005 # 10 |}] |})
  else RequestFails.

Definition sample_signals : list (string * Direction) :=
  (get_active_signals false sample_products_response sample_candles_api).1.

Definition sample_product_ids : gmap string (option Z) :=
  get_product_mapping (_get_all_usd_products_signals sample_products_response).

(** A wallet of 100 of which 80 are available. *)
Definition sample_wallet : HttpResponse (list WalletEntry) :=
  Response 200 (Some [{| balance := Some 100; available_balance := Some 80 |}]).

Definition sample_margins : list (string * Q) :=
  [("BTCUSD"%string, 125 # 10); ("ETHUSD"%string, 45)].

(** A codec of the snapshot that knows two documents: the empty store and
    the store that tracks the trailed long entry. *)
Definition sample_tracked : PositionsData :=
  {| positions := {[ "BTCUSD"%string := sample_trailed_entry ]} |}.

Definition cycle_dump (document : PositionsData) : string :=
  if decide (positions document = ∅) then "{}" else "{BTCUSD}".

Definition cycle_load (content : string) : option PositionsData :=
  if decide (content = "{}"%string) then Some {| positions := ∅ |}
  else if decide (content = "{BTCUSD}"%string) then Some sample_tracked
  else None.

(** The snapshot of [sample_tracked], with no backup beside it. *)
Definition tracked_files : FileSystem :=
  {| positions_file := Some "{BTCUSD}"%string;
     positions_file_bak := None;
     backup_dir := ∅;
     temp_dir := ∅ |}.

(** * Properties *)

(** ** Facts about rounding *)

Lemma Qgtb_lt a b : Qgtb a b = true <-> b < a.
Proof.
  unfold Qgtb. rewrite negb_true_iff.
  destruct (Qle_bool a b) eqn:E.
  - apply Qle_bool_iff in E. split; [discriminate | intros H; lra].
  - split; [intros _ | reflexivity].
    apply Qnot_le_lt. intros H. apply Qle_bool_iff in H. congruence.
Qed.

Lemma Qltb_lt a b : Qltb a b = true <-> a < b.
Proof. unfold Qltb. apply (Qgtb_lt b a). Qed.

Lemma Qgeb_le a b : Qgeb a b = true <-> b <= a.
Proof. unfold Qgeb. apply Qle_bool_iff. Qed.

Lemma Qgtb_false a b : Qgtb a b = false <-> a <= b.
Proof.
  unfold Qgtb. rewrite negb_false_iff. apply Qle_bool_iff.
Qed.

Lemma Qltb_false a b : Qltb a b = false <-> b <= a.
Proof. unfold Qltb. apply (Qgtb_false b a). Qed.

Lemma round_half_even_comp x y : x == y -> round_half_even x = round_half_even y.
Proof.
  intros H. unfold round_half_even.
  assert (Hf : Qfloor x = Qfloor y) by (rewrite H; reflexivity).
  rewrite Hf.
  assert (Hc : Qcompare (x - inject_Z (Qfloor y)) (1 # 2)
               = Qcompare (y - inject_Z (Qfloor y)) (1 # 2)).
  { rewrite H. reflexivity. }
  rewrite Hc. reflexivity.
Qed.

Lemma round_half_even_floor x :
  (Qfloor x <= round_half_even x <= Qfloor x + 1)%Z.
Proof.
  unfold round_half_even.
  destruct (Qcompare (x - inject_Z (Qfloor x)) (1 # 2)); [destruct (Z.even _) | |]; lia.
Qed.

Lemma round_half_even_Z (k : Z) : round_half_even (inject_Z k) = k.
Proof.
  unfold round_half_even. rewrite Qfloor_Z.
  assert (H : inject_Z k - inject_Z k < 1 # 2) by lra.
  rewrite Qlt_alt in H. rewrite H. reflexivity.
Qed.

Ltac Qcompare_hyps :=
  repeat match goal with
  | H : Qcompare _ _ = Eq |- _ => apply Qeq_alt in H
  | H : Qcompare _ _ = Lt |- _ => apply Qlt_alt in H
  | H : Qcompare _ _ = Gt |- _ => apply Qgt_alt in H
  end.

(** Rounding is monotone. *)
Lemma round_half_even_mono x y : x <= y -> (round_half_even x <= round_half_even y)%Z.
Proof.
  intros Hxy.
  pose proof (Qfloor_resp_le _ _ Hxy) as Hf.
  destruct (Z.eq_dec (Qfloor x) (Qfloor y)) as [E | NE].
  - unfold round_half_even. rewrite E.
    destruct (Qcompare (y - inject_Z (Qfloor y)) (1 # 2)) eqn:Cy;
      destruct (Qcompare (x - inject_Z (Qfloor y)) (1 # 2)) eqn:Cx;
      try (destruct (Z.even (Qfloor y))); try lia; exfalso; Qcompare_hyps; lra.
  - pose proof (round_half_even_floor x). pose proof (round_half_even_floor y). lia.
Qed.

Lemma py_round5_mono x y : x <= y -> py_round5 x <= py_round5 y.
Proof.
  intros H. unfold py_round5, Qle; simpl.
  apply Z.mul_le_mono_nonneg_r; [lia |].
  apply round_half_even_mono. lra.
Qed.

Lemma py_round5_comp x y : x == y -> py_round5 x = py_round5 y.
Proof.
  intros H. unfold py_round5. f_equal. apply round_half_even_comp. rewrite H. reflexivity.
Qed.

Lemma py_round5_five_digits x : five_digits (py_round5 x).
Proof. exists (round_half_even (x * 100000)). reflexivity. Qed.

(** A five-digit price is a fixed point of [round(_, 5)]. *)
Lemma py_round5_id x : five_digits x -> py_round5 x == x.
Proof.
  intros [k Hk]. unfold py_round5.
  assert (E : x * 100000 == inject_Z k).
  { rewrite Hk. unfold Qeq, inject_Z; simpl. lia. }
  rewrite (round_half_even_comp _ _ E), round_half_even_Z. symmetry. exact Hk.
Qed.



(** ** Facts about the calculator *)

Section CalculatorFacts.

Variable pct : Q.

(** An accepted candidate, once rounded, is never less protective than a
    five-digit stop it replaces. *)
Lemma accepted_long_stop price stop entry live_size :
  0 < live_size -> five_digits stop ->
  _should_update_stop_loss pct price stop entry live_size = true ->
  stop <= _calculate_stop_loss pct price entry live_size.
Proof.
  intros Hs Hg. unfold _should_update_stop_loss, _calculate_stop_loss.
  apply Qgtb_lt in Hs. rewrite Hs. intros Hu. apply Qgtb_lt in Hu.
  rewrite <- (py_round5_id stop Hg). apply py_round5_mono. lra.
Qed.

Lemma accepted_short_stop price stop entry live_size :
  live_size <= 0 -> five_digits stop ->
  _should_update_stop_loss pct price stop entry live_size = true ->
  _calculate_stop_loss pct price entry live_size <= stop.
Proof.
  intros Hs Hg. unfold _should_update_stop_loss, _calculate_stop_loss.
  apply Qgtb_false in Hs. rewrite Hs. intros Hu. apply Qltb_lt in Hu.
  rewrite <- (py_round5_id stop Hg). apply py_round5_mono. lra.
Qed.

Lemma _calculate_stop_loss_five_digits price entry live_size :
  five_digits (_calculate_stop_loss pct price entry live_size).
Proof.
  unfold _calculate_stop_loss. destruct (Qgtb live_size 0); apply py_round5_five_digits.
Qed.

End CalculatorFacts.

(** ** Facts about one run over the dictionary *)

Lemma no_order_for_filter symbol log :
  filter (fun ev => is_order_for symbol ev = true) log = [] -> no_order_for symbol log.
Proof.
  intros Hf pid sz ty sd ok Hin.
  apply list_elem_of_In in Hin.
  assert (Hx : OrderPlaced symbol pid sz ty sd ok
               ∈ filter (fun ev => is_order_for symbol ev = true) log).
  { apply list_elem_of_filter. split; [| exact Hin].
    simpl. apply bool_decide_eq_true. reflexivity. }
  rewrite Hf in Hx. inversion Hx.
Qed.

(** After the removal loop exactly the live symbols keep their entry. *)
Lemma lookup_remove_closed_positions (m : gmap string TrackedPosition)
    (live : gset string) s :
  remove_closed_positions m live !! s = if decide (s ∈ live) then m !! s else None.
Proof.
  unfold remove_closed_positions.
  assert (Hfold : forall X : gset string,
             set_fold (fun symbol d => delete symbol d) m X !! s
             = if decide (s ∈ X) then None else m !! s).
  { apply (set_fold_ind_L
             (fun (r : gmap string TrackedPosition) (X : gset string) =>
                r !! s = if decide (s ∈ X) then None else m !! s)).
    - rewrite decide_False by set_solver. done.
    - intros x X r Hx Hr. rewrite lookup_delete, Hr.
      destruct (decide (x = s)), (decide (s ∈ X)), (decide (s ∈ {[x]} ∪ X));
        try done; set_solver. }
  rewrite Hfold.
  destruct (decide (s ∈ dom m ∖ live)) as [Hin | Hout], (decide (s ∈ live));
    try done.
  - set_solver.
  - apply not_elem_of_dom. set_solver.
Qed.

Section ManagerFacts.

Variable pct : Q.
Variable pm : gmap string Z.
Variable oracle : string -> Q.
Variable accepts : Z -> Q -> string -> Side -> bool.
Variable now : string.

Local Abbreviation process := (process_position pct pm oracle accepts now).
Local Abbreviation step := (entry_step pct pm oracle accepts now).
Local Abbreviation reconcile := (reconcile_positions pct pm oracle accepts now).
Local Abbreviation orders_for s := (filter (fun ev => is_order_for s ev = true)).

(** The loop body rewrites the entry of the position's symbol through
    [entry_step] and nothing else. *)
Lemma process_position_entry_step m log p :
  process (m, log) p =
  (partial_alter (fun _ => (step p (m !! product_symbol p)).1) (product_symbol p) m,
   log ++ (step p (m !! product_symbol p)).2).
Proof.
  unfold process_position, entry_step, close_position, update_stop_loss.
  set (s := product_symbol p).
  assert (Hmap : forall o (m' : gmap string TrackedPosition),
             (forall k, m' !! k = if decide (s = k) then o else m !! k) ->
             m' = partial_alter (fun _ => o) s m).
  { intros o m' Hm'. apply map_eq. intros k.
    rewrite lookup_partial_alter. apply Hm'. }
  destruct (pm !! s) as [pid |] eqn:Hpm; simpl.
  2:{ rewrite app_nil_r. f_equal. apply Hmap.
      intros k. case_decide; congruence. }
  destruct (pid =? 0)%Z; simpl.
  { rewrite app_nil_r. f_equal. apply Hmap.
    intros k. case_decide; congruence. }
  destruct (Qeq_bool (oracle s) 0); simpl.
  { f_equal. apply Hmap. intros k. case_decide; congruence. }
  destruct (m !! s) as [e0 |] eqn:Hm; simpl.
  2:{ f_equal; try (apply Hmap; intros k; rewrite lookup_insert;
                    case_decide; reflexivity). }
  assert (Hclose : forall side,
             (if place_order accepts pid (Qabs (position_size p)) "market_order" side
              then (delete s (<[s:=set_current_price (oracle s) e0]> m),
                    (log ++ [PriceLookup s (oracle s)])
                    ++ [OrderPlaced s pid (Qabs (position_size p)) "market_order"
                          side
                          (place_order accepts pid (Qabs (position_size p))
                             "market_order" side)])
              else (<[s:=set_current_price (oracle s) e0]> m,
                    (log ++ [PriceLookup s (oracle s)])
                    ++ [OrderPlaced s pid (Qabs (position_size p)) "market_order"
                          side
                          (place_order accepts pid (Qabs (position_size p))
                             "market_order" side)]))
             = (partial_alter
                  (fun _ =>
                     if place_order accepts pid (Qabs (position_size p))
                          "market_order" side
                     then None else Some (set_current_price (oracle s) e0)) s m,
                log ++ [PriceLookup s (oracle s);
                        OrderPlaced s pid (Qabs (position_size p)) "market_order"
                          side
                          (place_order accepts pid (Qabs (position_size p))
                             "market_order" side)])).
  { intros side.
    destruct (place_order accepts pid (Qabs (position_size p)) "market_order" side);
      rewrite <- app_assoc; f_equal;
      try (apply Hmap; intros k;
           rewrite ?lookup_delete, ?lookup_insert; repeat case_decide;
           congruence). }
  assert (Htrail :
            (if _should_update_stop_loss pct (oracle s) (stop_loss e0)
                  (entry_price e0) (position_size p)
             then (<[s:=set_stop_loss
                          (_calculate_stop_loss pct (oracle s) (entry_price e0)
                             (position_size p)) now
                          (set_current_price (oracle s) e0)]>
                     (<[s:=set_current_price (oracle s) e0]> m),
                   log ++ [PriceLookup s (oracle s)])
             else (<[s:=set_current_price (oracle s) e0]> m,
                   log ++ [PriceLookup s (oracle s)]))
            = (partial_alter
                 (fun _ =>
                    (if _should_update_stop_loss pct (oracle s) (stop_loss e0)
                          (entry_price e0) (position_size p)
                     then (Some (set_stop_loss
                                   (_calculate_stop_loss pct (oracle s)
                                      (entry_price e0) (position_size p)) now
                                   (set_current_price (oracle s) e0)),
                           [PriceLookup s (oracle s)])
                     else (Some (set_current_price (oracle s) e0),
                           [PriceLookup s (oracle s)])).1) s m,
               log ++ (if _should_update_stop_loss pct (oracle s) (stop_loss e0)
                            (entry_price e0) (position_size p)
                       then (Some (set_stop_loss
                                     (_calculate_stop_loss pct (oracle s)
                                        (entry_price e0) (position_size p)) now
                                     (set_current_price (oracle s) e0)),
                             [PriceLookup s (oracle s)])
                       else (Some (set_current_price (oracle s) e0),
                             [PriceLookup s (oracle s)])).2)).
  { destruct (_should_update_stop_loss pct (oracle s) (stop_loss e0)
                (entry_price e0) (position_size p)); simpl;
      f_equal;
      try (apply Hmap; intros k; rewrite !lookup_insert; repeat case_decide;
           congruence). }
  destruct (Qgtb (position_size p) 0); simpl.
  - destruct (Qle_bool (oracle s) (stop_loss e0)); simpl;
      [apply Hclose | apply Htrail].
  - destruct (Qgeb (oracle s) (stop_loss e0)); simpl;
      [apply Hclose | apply Htrail].
Qed.

Lemma process_position_lookup m log p k :
  (process (m, log) p).1 !! k =
  if decide (product_symbol p = k) then (step p (m !! product_symbol p)).1
  else m !! k.
Proof.
  rewrite process_position_entry_step. simpl. apply lookup_partial_alter.
Qed.

(** Every event of a step carries the symbol of the position processed. *)
Lemma entry_step_orders_other p o s :
  s <> product_symbol p -> orders_for s (step p o).2 = [].
Proof.
  intros Hne. unfold entry_step.
  assert (Hd : bool_decide (product_symbol p = s) = false)
    by (apply bool_decide_eq_false; congruence).
  repeat match goal with
         | |- context [match ?x with _ => _ end] => destruct x
         end; simpl; try reflexivity;
    rewrite filter_cons_False by (simpl; congruence);
    try reflexivity;
    rewrite filter_cons_False by (simpl; rewrite Hd; congruence); reflexivity.
Qed.

Lemma entry_step_lookups p o s price :
  In (PriceLookup s price) (step p o).2 ->
  s = product_symbol p /\ price = oracle s /\
  exists product_id, pm !! s = Some product_id /\ product_id <> 0%Z.
Proof.
  unfold entry_step.
  destruct (pm !! product_symbol p) as [pid |] eqn:Hpm; simpl; [| tauto].
  destruct (pid =? 0)%Z eqn:Hz; simpl; [tauto |].
  apply Z.eqb_neq in Hz.
  assert (Hgoal : PriceLookup s price = PriceLookup (product_symbol p)
                    (oracle (product_symbol p)) ->
                  s = product_symbol p /\ price = oracle s /\
                  exists product_id, pm !! s = Some product_id /\ product_id <> 0%Z).
  { intros E. injection E as -> ->. eauto. }
  repeat match goal with
         | |- context [match ?x with _ => _ end] => destruct x
         end; simpl; intros Hin;
    repeat (destruct Hin as [Hin | Hin]; [symmetry in Hin |]);
    try (apply Hgoal; assumption); try discriminate; try contradiction.
Qed.

(** A symbol whose steps all hand its entry back and place no order is
    left alone by the loop. *)
Lemma fold_process_untouched s l :
  (forall p o, In p l -> product_symbol p = s ->
               (step p o).1 = o /\ orders_for s (step p o).2 = []) ->
  forall m log,
    (fold_left process l (m, log)).1 !! s = m !! s /\
    orders_for s (fold_left process l (m, log)).2 = orders_for s log.
Proof.
  induction l as [| q l IH]; intros Hstep m log; cbn [fold_left]; [done |].
  rewrite process_position_entry_step.
  destruct (IH (fun p o Hp => Hstep p o (or_intror Hp))
               (partial_alter (fun _ => (step q (m !! product_symbol q)).1)
                  (product_symbol q) m)
               (log ++ (step q (m !! product_symbol q)).2)) as [IH1 IH2].
  rewrite IH1, IH2, lookup_partial_alter, filter_app. split.
  - case_decide as E; [| done]. rewrite E.
    apply (Hstep q (m !! s)); [by left | done].
  - destruct (decide (product_symbol q = s)) as [E | NE].
    + destruct (Hstep q (m !! product_symbol q) (or_introl eq_refl) E) as [_ ->].
      apply app_nil_r.
    + rewrite entry_step_orders_other by congruence. apply app_nil_r.
Qed.

Lemma fold_process_absent s l m log :
  ~ In s (map product_symbol l) ->
  (fold_left process l (m, log)).1 !! s = m !! s /\
  orders_for s (fold_left process l (m, log)).2 = orders_for s log.
Proof.
  intros Hs. apply fold_process_untouched.
  intros p o Hp E. exfalso. apply Hs. rewrite <- E. by apply in_map.
Qed.

(** With one position per symbol, the loop does to a live symbol exactly
    what the step of its position does to the entry the run started with. *)
Lemma fold_process_nodup l :
  NoDup (map product_symbol l) ->
  forall p m log, In p l ->
    (fold_left process l (m, log)).1 !! product_symbol p
      = (step p (m !! product_symbol p)).1 /\
    orders_for (product_symbol p) (fold_left process l (m, log)).2
      = orders_for (product_symbol p) log
        ++ orders_for (product_symbol p) (step p (m !! product_symbol p)).2.
Proof.
  induction l as [| q l IH]; intros Hnd p m log Hp; [destruct Hp |].
  simpl in Hnd. apply NoDup_cons in Hnd as [Hq Hnd].
  rewrite list_elem_of_In in Hq.
  cbn [fold_left]. rewrite process_position_entry_step.
  destruct Hp as [-> | Hp].
  - destruct (fold_process_absent (product_symbol p) l
                (partial_alter (fun _ => (step p (m !! product_symbol p)).1)
                   (product_symbol p) m)
                (log ++ (step p (m !! product_symbol p)).2) Hq) as [-> ->].
    rewrite lookup_partial_alter, decide_True, filter_app by done. done.
  - assert (Hne : product_symbol q <> product_symbol p).
    { intros E. apply Hq. rewrite E. by apply in_map. }
    destruct (IH Hnd p
                (partial_alter (fun _ => (step q (m !! product_symbol q)).1)
                   (product_symbol q) m)
                (log ++ (step q (m !! product_symbol q)).2) Hp) as [-> ->].
    rewrite lookup_partial_alter, decide_False, filter_app by done.
    rewrite (entry_step_orders_other q) by congruence.
    rewrite app_nil_r. done.
Qed.

Lemma fold_process_lookups l : forall m log s price,
  In (PriceLookup s price) (fold_left process l (m, log)).2 ->
  In (PriceLookup s price) log \/
  (In s (map product_symbol l) /\ price = oracle s /\
   exists product_id, pm !! s = Some product_id /\ product_id <> 0%Z).
Proof.
  induction l as [| q l IH]; intros m log s price; cbn [fold_left map In];
    [simpl; tauto |].
  rewrite process_position_entry_step. intros Hin.
  apply IH in Hin as [Hin | (Hs & Hp & Hm)]; [| by eauto].
  apply in_app_or in Hin as [Hin | Hin]; [by left |].
  apply entry_step_lookups in Hin as (-> & Hp & Hm). right. eauto.
Qed.

Lemma reconcile_positions_fold m l :
  reconcile m l =
  (remove_closed_positions (fold_left process l (m, [])).1
     (list_to_set (map product_symbol l)),
   (fold_left process l (m, [])).2).
Proof.
  unfold reconcile_positions. by destruct (fold_left process l (m, [])).
Qed.

Lemma reconcile_lookup_live m l s :
  In s (map product_symbol l) ->
  (reconcile m l).1 !! s = (fold_left process l (m, [])).1 !! s.
Proof.
  intros Hs. rewrite reconcile_positions_fold. simpl.
  rewrite lookup_remove_closed_positions, decide_True; [done |].
  apply elem_of_list_to_set, list_elem_of_In, Hs.
Qed.

End ManagerFacts.

(** ** The run and the stored entries *)

Section ManagerClaims.

Variable pct : Q.
Variable pm : gmap string Z.
Variable oracle : string -> Q.
Variable accepts : Z -> Q -> string -> Side -> bool.
Variable now : string.

Local Abbreviation step := (entry_step pct pm oracle accepts now).
Local Abbreviation orders_for s := (filter (fun ev => is_order_for s ev = true)).

Lemma In_orders_for s log pid sz ty sd ok :
  In (OrderPlaced s pid sz ty sd ok) log ->
  In (OrderPlaced s pid sz ty sd ok) (orders_for s log).
Proof.
  intros Hin. apply list_elem_of_In, list_elem_of_filter. split.
  - simpl. by apply bool_decide_eq_true.
  - by apply list_elem_of_In.
Qed.

(** An order in the log of a run belongs to a live symbol. *)
Lemma order_symbol_live stored l s pid sz ty sd ok :
  In (OrderPlaced s pid sz ty sd ok)
    (reconcile_positions pct pm oracle accepts now stored l).2 ->
  In s (map product_symbol l).
Proof.
  intros Hin. apply In_orders_for in Hin.
  destruct (in_dec String.string_dec s (map product_symbol l)) as [Hs | Hs]; [done |].
  rewrite reconcile_positions_fold in Hin. simpl in Hin.
  destruct (fold_process_absent pct pm oracle accepts now s l stored [] Hs)
    as [_ Ho].
  rewrite Ho in Hin. destruct Hin.
Qed.

(** Under one position per symbol, the run leaves a live symbol with what
    the step of its position makes of the entry at the start. *)
Lemma reconcile_live_entry stored l p :
  NoDup (map product_symbol l) -> In p l ->
  (reconcile_positions pct pm oracle accepts now stored l).1 !! product_symbol p
    = (step p (stored !! product_symbol p)).1 /\
  orders_for (product_symbol p)
    (reconcile_positions pct pm oracle accepts now stored l).2
    = orders_for (product_symbol p) (step p (stored !! product_symbol p)).2.
Proof.
  intros Hnd Hp.
  rewrite reconcile_lookup_live by (by apply in_map).
  rewrite reconcile_positions_fold. simpl.
  destruct (fold_process_nodup pct pm oracle accepts now l Hnd p stored [] Hp)
    as [-> ->].
  done.
Qed.

(** C8. A symbol that is stored but no longer among the live positions is
    deleted by the run, and the run places no order for it. *)
Theorem closed_position_removed stored l s :
  is_Some (stored !! s) ->
  ~ In s (map product_symbol l) ->
  (reconcile_positions pct pm oracle accepts now stored l).1 !! s = None /\
  no_order_for s (reconcile_positions pct pm oracle accepts now stored l).2.
Proof.
  intros _ Hs. rewrite reconcile_positions_fold. simpl. split.
  - rewrite lookup_remove_closed_positions. apply decide_False.
    rewrite elem_of_list_to_set, list_elem_of_In. exact Hs.
  - apply no_order_for_filter.
    by destruct (fold_process_absent pct pm oracle accepts now s l stored [] Hs)
      as [_ ->].
Qed.

(** C7. A symbol whose price lookup of this run answered 0 is skipped: its
    stored entry, or its absence from the store, is the same after the run,
    and no order is placed for it. *)
Theorem failed_lookup_skips_symbol stored l s price :
  In (PriceLookup s price)
     (reconcile_positions pct pm oracle accepts now stored l).2 ->
  price == 0 ->
  (reconcile_positions pct pm oracle accepts now stored l).1 !! s = stored !! s /\
  no_order_for s (reconcile_positions pct pm oracle accepts now stored l).2.
Proof.
  intros Hin Hz.
  rewrite reconcile_positions_fold in Hin. simpl in Hin.
  apply fold_process_lookups in Hin.
  destruct Hin as [Hin | (Hlive & Hp & _)]; [destruct Hin |]. subst price.
  assert (Hskip : forall p o, In p l -> product_symbol p = s ->
                    (step p o).1 = o /\ orders_for s (step p o).2 = []).
  { intros p o _ <-. unfold entry_step.
    destruct (pm !! product_symbol p) as [pid |]; [| done].
    destruct (pid =? 0)%Z; [done |].
    apply Qeq_bool_iff in Hz. rewrite Hz. done. }
  destruct (fold_process_untouched pct pm oracle accepts now s l Hskip stored [])
    as [Hm Ho].
  split.
  - rewrite reconcile_lookup_live by done. exact Hm.
  - apply no_order_for_filter. rewrite reconcile_positions_fold. simpl.
    by rewrite Ho.
Qed.

Lemma reconcile_live_order stored l p pid sz ty sd ok :
  NoDup (map product_symbol l) -> In p l ->
  In (OrderPlaced (product_symbol p) pid sz ty sd ok)
    (reconcile_positions pct pm oracle accepts now stored l).2 ->
  In (OrderPlaced (product_symbol p) pid sz ty sd ok)
     (step p (stored !! product_symbol p)).2.
Proof.
  intros Hnd Hp Hin. apply In_orders_for in Hin.
  destruct (reconcile_live_entry stored l p Hnd Hp) as [_ Ho].
  rewrite Ho in Hin.
  apply list_elem_of_In, list_elem_of_filter in Hin as [_ Hin].
  by apply list_elem_of_In.
Qed.

Lemma reconcile_lookup_answer stored l s price :
  In (PriceLookup s price)
    (reconcile_positions pct pm oracle accepts now stored l).2 ->
  price = oracle s /\
  exists product_id, pm !! s = Some product_id /\ (product_id =? 0)%Z = false.
Proof.
  intros Hin. rewrite reconcile_positions_fold in Hin. simpl in Hin.
  apply fold_process_lookups in Hin.
  destruct Hin as [Hin | (_ & Hp & pid & Hpm & Hz)]; [destruct Hin |].
  split; [done |]. exists pid. split; [done |]. by apply Z.eqb_neq.
Qed.

(** The entry the run makes for a symbol it did not know. *)
Lemma reconcile_new_entry stored l p price :
  NoDup (map product_symbol l) -> In p l ->
  stored !! product_symbol p = None ->
  In (PriceLookup (product_symbol p) price)
    (reconcile_positions pct pm oracle accepts now stored l).2 ->
  ~ price == 0 ->
    (reconcile_positions pct pm oracle accepts now stored l).1 !! product_symbol p =
  Some {| entry_price := position_entry_price p; current_price := price;
          stop_loss := _calculate_stop_loss pct (position_entry_price p)
                         (position_entry_price p) (position_size p);
          size := position_size p; stop_loss_updates := 0;
          last_update := now |}.
Proof.
  intros Hnd Hp Hnew Hin Hprice.
  destruct (reconcile_lookup_answer _ _ _ _ Hin) as (-> & pid & Hpm & Hz).
  destruct (reconcile_live_entry stored l p Hnd Hp) as [-> _].
  rewrite Hnew. unfold entry_step. rewrite Hpm, Hz.
  destruct (Qeq_bool (oracle (product_symbol p)) 0) eqn:E; [| done].
  apply Qeq_bool_iff in E. contradiction.
Qed.


(** C10. In the run that first meets a live symbol no close order is
    placed for it, and the entry made for it is in the store when the run
    ends, whatever the price is, a price beyond the initial stop included. *)
Theorem new_position_not_closed stored l p :
  NoDup (map product_symbol l) -> In p l ->
  stored !! product_symbol p = None ->
  no_order_for (product_symbol p)
    (reconcile_positions pct pm oracle accepts now stored l).2 /\
  forall price,
    In (PriceLookup (product_symbol p) price)
       (reconcile_positions pct pm oracle accepts now stored l).2 ->
    ~ price == 0 ->
    exists e,
      (reconcile_positions pct pm oracle accepts now stored l).1
        !! product_symbol p = Some e /\
      current_price e = price /\
      stop_loss e = _calculate_stop_loss pct (position_entry_price p)
                      (position_entry_price p) (position_size p) /\
      stop_loss_updates e = 0%Z.
Proof.
  intros Hnd Hp Hnew. split.
  - intros pid sz ty sd ok Hin.
    apply (reconcile_live_order _ _ _ _ _ _ _ _ Hnd Hp) in Hin.
    rewrite Hnew in Hin. unfold entry_step in Hin.
    destruct (pm !! product_symbol p) as [pid' |]; [| destruct Hin].
    destruct (pid' =? 0)%Z; [destruct Hin |].
    destruct (Qeq_bool (oracle (product_symbol p)) 0);
      destruct Hin as [Hin | []]; discriminate.
  - intros price Hin Hprice. eexists.
    split; [by apply reconcile_new_entry |]. done.
Qed.

(** C3, as the code has it. When the close order placed for a stored
    symbol is not successful, the run leaves the entry with its entry price,
    stop, size, count of stop movements and time of last update, and with
    the current price set to the price looked up in this run. *)
Theorem failed_close_keeps_entry stored l s e pid sz ty sd :
  NoDup (map product_symbol l) ->
  stored !! s = Some e ->
  In (OrderPlaced s pid sz ty sd false)
     (reconcile_positions pct pm oracle accepts now stored l).2 ->
  (reconcile_positions pct pm oracle accepts now stored l).1 !! s =
  Some {| entry_price := entry_price e; current_price := oracle s;
          stop_loss := stop_loss e; size := size e;
          stop_loss_updates := stop_loss_updates e;
          last_update := last_update e |}.
Proof.
  intros Hnd He Hin.
  pose proof (order_symbol_live _ _ _ _ _ _ _ _ Hin) as Hs.
  apply in_map_iff in Hs as (p & <- & Hp).
  apply (reconcile_live_order _ _ _ _ _ _ _ _ Hnd Hp) in Hin.
  destruct (reconcile_live_entry stored l p Hnd Hp) as [-> _].
  rewrite He in *. unfold entry_step in *.
  destruct (pm !! product_symbol p) as [pid' |]; [| destruct Hin].
  destruct (pid' =? 0)%Z; [destruct Hin |].
  destruct (Qeq_bool (oracle (product_symbol p)) 0);
    [destruct Hin as [Hin | []]; discriminate |].
  cbn [stop_loss set_current_price entry_price] in *.
  destruct (if Qgtb (position_size p) 0
            then Qle_bool (oracle (product_symbol p)) (stop_loss e)
            else Qgeb (oracle (product_symbol p)) (stop_loss e)).
  - cbn [snd fst] in *.
    destruct Hin as [Hin | [Hin | []]]; [discriminate |].
    injection Hin as _ _ _ _ Hok. rewrite Hok. done.
  - destruct (_should_update_stop_loss pct (oracle (product_symbol p))
                (stop_loss e) (entry_price e) (position_size p));
      destruct Hin as [Hin | []]; discriminate.
Qed.

(** C4, as the code has it. Over a run an entry that stays in the store and
    whose stop has five fractional digits has its stop moved, if at all, in
    the protective direction of the live position: not down when the live
    size is positive, not up when it is negative. *)
Theorem stop_loss_ratchet stored l p e e' :
  NoDup (map product_symbol l) -> In p l ->
  stored !! product_symbol p = Some e ->
  five_digits (stop_loss e) ->
  (reconcile_positions pct pm oracle accepts now stored l).1
    !! product_symbol p = Some e' ->
  (0 < position_size p -> stop_loss e <= stop_loss e') /\
  (position_size p < 0 -> stop_loss e' <= stop_loss e).
Proof.
  intros Hnd Hp He Hgrid.
  destruct (reconcile_live_entry stored l p Hnd Hp) as [-> _].
  rewrite He. unfold entry_step.
  destruct (pm !! product_symbol p) as [pid |];
    [| intros [= <-]; split; intros _; apply Qle_refl].
  destruct (pid =? 0)%Z; [intros [= <-]; split; intros _; apply Qle_refl |].
  destruct (Qeq_bool (oracle (product_symbol p)) 0);
    [intros [= <-]; split; intros _; apply Qle_refl |].
  cbn [stop_loss set_current_price entry_price].
  destruct (if Qgtb (position_size p) 0
            then Qle_bool (oracle (product_symbol p)) (stop_loss e)
            else Qgeb (oracle (product_symbol p)) (stop_loss e)).
  { cbn [fst].
    destruct (place_order accepts pid (Qabs (position_size p)) "market_order"
                (if Qgtb (position_size p) 0 then sell else buy));
      [discriminate |].
    intros [= <-]. split; intros _; apply Qle_refl. }
  destruct (_should_update_stop_loss pct (oracle (product_symbol p))
              (stop_loss e) (entry_price e) (position_size p)) eqn:Hup;
    cbn [fst]; intros [= <-]; cbn [stop_loss set_stop_loss set_current_price
                                   entry_price].
  - split; intros Hsize.
    + by apply accepted_long_stop.
    + apply accepted_short_stop; [lra | done | done].
  - split; intros _; apply Qle_refl.
Qed.

End ManagerClaims.

(** The five-digit form of the stops, which the ratchet relies on, is kept by
    every run: the only stops a run writes are results of [round(_, 5)]. *)
Section StopPrecision.

Variable pct : Q.
Variable pm : gmap string Z.
Variable oracle : string -> Q.
Variable accepts : Z -> Q -> string -> Side -> bool.
Variable now : string.

Local Abbreviation process := (process_position pct pm oracle accepts now).
Local Abbreviation step := (entry_step pct pm oracle accepts now).
Local Abbreviation reconcile := (reconcile_positions pct pm oracle accepts now).

Lemma entry_step_five_digits p o e' :
  (forall e, o = Some e -> five_digits (stop_loss e)) ->
  (step p o).1 = Some e' -> five_digits (stop_loss e').
Proof.
  intros Ho. unfold entry_step.
  repeat match goal with
         | |- context [match ?x with _ => _ end] => destruct x eqn:?
         end; cbn [fst]; intros Heq; try discriminate; try (by apply Ho);
    injection Heq as <-; cbn [stop_loss set_stop_loss set_current_price];
    first [apply _calculate_stop_loss_five_digits | by apply Ho].
Qed.

Lemma fold_process_five_digits l : forall m log,
  stops_five_digits m -> stops_five_digits (fold_left process l (m, log)).1.
Proof.
  induction l as [| q l IH]; intros m log Hm; cbn [fold_left]; [exact Hm |].
  rewrite process_position_entry_step. apply IH.
  intros s e. rewrite lookup_partial_alter. case_decide as E; [| apply Hm].
  apply entry_step_five_digits. intros e0. apply Hm.
Qed.

Lemma reconcile_five_digits stored l :
  stops_five_digits stored -> stops_five_digits (reconcile stored l).1.
Proof.
  intros Hm s e. rewrite reconcile_positions_fold. simpl.
  rewrite lookup_remove_closed_positions. case_decide; [| done].
  by apply fold_process_five_digits.
Qed.

End StopPrecision.

(** ** Worked runs *)

Lemma NoDup_one_symbol p : NoDup (map product_symbol [p]).
Proof. apply NoDup_singleton. Defined.

(** A stored BTCUSD entry while only ETHUSD is live. *)
Lemma closed_position_removed_witness :
  (reconcile_positions 2 sample_mapping (price_of 45) exchange_fills sample_now
     sample_store [sample_eth_position]).1 !! "BTCUSD"%string = None /\
  no_order_for "BTCUSD"
    (reconcile_positions 2 sample_mapping (price_of 45) exchange_fills sample_now
       sample_store [sample_eth_position]).2.
Proof.
  apply closed_position_removed.
  - exists sample_long_entry. reflexivity.
  - simpl. intros [H | []]. discriminate H.
Defined.

(** The lookup for the stored, live BTCUSD answers 0. *)
Lemma failed_lookup_skips_symbol_witness :
  (reconcile_positions 2 sample_mapping (price_of 0) exchange_fills sample_now
     sample_store [sample_long_position]).1 !! "BTCUSD"%string
  = sample_store !! "BTCUSD"%string /\
  no_order_for "BTCUSD"
    (reconcile_positions 2 sample_mapping (price_of 0) exchange_fills sample_now
       sample_store [sample_long_position]).2.
Proof.
  apply (failed_lookup_skips_symbol 2 sample_mapping (price_of 0) exchange_fills
           sample_now sample_store [sample_long_position] "BTCUSD" 0).
  - vm_compute. left. reflexivity.
  - reflexivity.
Defined.



(** The rational reading of the calculator gives the nearer neighbour at
    this input, 0.00074; the bound of one unit holds of both. *)
Example initial_stop_rational_reading :
  _calculate_stop_loss 2 (75 # 100000) (75 # 100000) 1 == 74 # 100000 /\
  Qabs (_calculate_stop_loss 2 (75 # 100000) (75 # 100000) 1
        - (75 # 100000) * (1 - 2 / 100)) < 1 # 100000.
Proof. split; vm_compute; reflexivity. Qed.

(** BTCUSD, long from 100, is met for the first time at a price of 90, below
    the initial stop of 98. *)
Lemma new_position_not_closed_witness :
  no_order_for "BTCUSD"
    (reconcile_positions 2 sample_mapping (price_of 90) exchange_fills sample_now
       ∅ [sample_long_position]).2 /\
  forall price,
    In (PriceLookup "BTCUSD" price)
       (reconcile_positions 2 sample_mapping (price_of 90) exchange_fills
          sample_now ∅ [sample_long_position]).2 ->
    ~ price == 0 ->
    exists e,
      (reconcile_positions 2 sample_mapping (price_of 90) exchange_fills
         sample_now ∅ [sample_long_position]).1 !! "BTCUSD"%string = Some e /\
      current_price e = price /\
      stop_loss e = _calculate_stop_loss 2 100 100 1 /\
      stop_loss_updates e = 0%Z.
Proof.
  apply (new_position_not_closed 2 sample_mapping (price_of 90) exchange_fills
           sample_now ∅ [sample_long_position] sample_long_position).
  - apply NoDup_one_symbol.
  - left. reflexivity.
  - reflexivity.
Defined.

(** The price of 90 is at or below the initial stop, and the entry is there
    all the same. *)
Example new_position_beyond_stop :
  _calculate_stop_loss 2 100 100 1 == 98 /\
  90 <= _calculate_stop_loss 2 100 100 1 /\
  (reconcile_positions 2 sample_mapping (price_of 90) exchange_fills sample_now
     ∅ [sample_long_position]) =
  ({[ "BTCUSD"%string :=
        {| entry_price := 100; current_price := 90;
           stop_loss := _calculate_stop_loss 2 100 100 1; size := 1;
           stop_loss_updates := 0; last_update := sample_now |} ]},
   [PriceLookup "BTCUSD" 90]).
Proof.
  split; [reflexivity |]. split; [vm_compute; discriminate |].
  vm_compute. reflexivity.
Qed.

(** BTCUSD is long with its stop at 98; the price is 97 and the exchange
    turns the sell order down. *)
Lemma failed_close_keeps_entry_witness :
  (reconcile_positions 2 sample_mapping (price_of 97) exchange_rejects sample_now
     sample_store [sample_long_position]).1 !! "BTCUSD"%string =
  Some {| entry_price := 100; current_price := 97; stop_loss := 98; size := 1;
          stop_loss_updates := 0; last_update := "2025-03-18 05:00:00" |}.
Proof.
  apply (failed_close_keeps_entry 2 sample_mapping (price_of 97) exchange_rejects
           sample_now sample_store [sample_long_position] "BTCUSD"
           sample_long_entry 27 1 "market_order" sell).
  - apply NoDup_one_symbol.
  - reflexivity.
  - vm_compute. right. left. reflexivity.
Defined.

(** C3, the claim as stated fails: in the same run the stop is breached, the
    close order is not successful, and the stored entry is not what it was
    when the run started (its current price went from 105 to 97). *)
Lemma failed_close_changes_entry :
  sample_store !! "BTCUSD"%string = Some sample_long_entry /\
  price_of 97 "BTCUSD"%string <= stop_loss sample_long_entry /\
  In (OrderPlaced "BTCUSD" 27 1 "market_order" sell false)
     (reconcile_positions 2 sample_mapping (price_of 97) exchange_rejects
        sample_now sample_store [sample_long_position]).2 /\
  (reconcile_positions 2 sample_mapping (price_of 97) exchange_rejects sample_now
     sample_store [sample_long_position]).1 !! "BTCUSD"%string
  <> sample_store !! "BTCUSD"%string.
Proof.
  split; [reflexivity |]. split; [vm_compute; discriminate |].
  split; [vm_compute; right; left; reflexivity |].
  vm_compute. discriminate.
Qed.

(** The stored long entry, stop 98, is still long on the exchange and the
    price is 110: the stop goes up to 108. *)
Lemma stop_loss_ratchet_witness :
  (0 < 1 -> stop_loss sample_long_entry <= 10800000 # 100000) /\
  (1 < 0 -> 10800000 # 100000 <= stop_loss sample_long_entry).
Proof.
  apply (stop_loss_ratchet 2 sample_mapping (price_of 110) exchange_fills
           sample_now sample_store [sample_long_position] sample_long_position
           sample_long_entry
           {| entry_price := 100; current_price := 110;
              stop_loss := 10800000 # 100000;
              size := 1; stop_loss_updates := 1; last_update := sample_now |}).
  - apply NoDup_one_symbol.
  - left. reflexivity.
  - reflexivity.
  - exists 9800000%Z. reflexivity.
  - vm_compute. reflexivity.
Defined.

(** C4, the claim as stated fails: the stored entry has a positive size and
    a stop of 98; the exchange reports the symbol short, the price is 90, and
    the run lowers the stored stop to 92 while the stored size stays
    positive. *)
Lemma stop_loss_loosened_after_flip :
  sample_store !! "BTCUSD"%string = Some sample_long_entry /\
  0 < size sample_long_entry /\
  exists e',
    (reconcile_positions 2 sample_mapping (price_of 90) exchange_fills sample_now
       sample_store [sample_flipped_position]).1 !! "BTCUSD"%string = Some e' /\
    size e' = size sample_long_entry /\
    ~ stop_loss sample_long_entry <= stop_loss e'.
Proof.
  split; [reflexivity |]. split; [reflexivity |].
  eexists. split; [vm_compute; reflexivity |].
  split; [reflexivity |]. vm_compute. intros H. apply H. reflexivity.
Qed.

(** ** The stop-loss test against the stop-loss formula *)

(** C2. The test is claimed true exactly when the stop the formula gives is
    strictly more protective than the current stop.  The code breaks this:
    long from 100 at 2 percent with the stop at 100 and the price at
    102.000004, the test says the stop should be updated, and the stop the
    formula then gives is 100, the stop already held. *)
Theorem should_update_without_movement :
  _should_update_stop_loss 2 (102000004 # 1000000) 100 100 1 = true /\
  _calculate_stop_loss 2 (102000004 # 1000000) 100 1 == 100.
Proof. split; reflexivity. Qed.

(** The same input over IEEE doubles: the test is true, and the rounded
    candidate is the double 100.0. *)
Example should_update_without_movement_ieee :
  _should_update_stop_loss_float 2 0x1.9800010c6f7a1p+6 100 100 1 = true /\
  (_calculate_stop_loss_float 2 0x1.9800010c6f7a1p+6 100 1 =? 100)%float = true /\
  float_exact 0x1.9800010c6f7a1p+6 * 1000000 - 102000004 < 1 # 100000000 /\
  102000004 - float_exact 0x1.9800010c6f7a1p+6 * 1000000 < 1 # 100000000.
Proof. repeat split; vm_compute; reflexivity. Qed.

(** The same for a short from 100 with its stop at 100 and the price at
    97.999996. *)
Example should_update_without_movement_short :
  _should_update_stop_loss 2 (97999996 # 1000000) 100 100 (-1) = true /\
  _calculate_stop_loss 2 (97999996 # 1000000) 100 (-1) == 100.
Proof. split; reflexivity. Qed.

(** A stop with more than five digits can be passed by the rounded candidate
    while the test says no. *)
Example no_update_with_movement :
  _should_update_stop_loss 2 (102000006 # 1000000) (100000006 # 1000000) 100 1
  = false /\
  100000006 # 1000000 < _calculate_stop_loss 2 (102000006 # 1000000) 100 1.
Proof. split; reflexivity. Qed.

(** In a run: the stop stands at 100 and the price is 102.000004; the run
    counts a stop movement and stamps the entry, and the stop is 100 as
    before. *)
Example update_counted_without_movement :
  exists e,
    (reconcile_positions 2 sample_mapping (price_of (102000004 # 1000000))
       exchange_fills sample_now {[ "BTCUSD"%string := sample_trailed_entry ]}
       [sample_long_position]).1 !! "BTCUSD"%string = Some e /\
    stop_loss e == stop_loss sample_trailed_entry /\
    stop_loss_updates e = (stop_loss_updates sample_trailed_entry + 1)%Z /\
    last_update e = sample_now.
Proof. eexists. split; [vm_compute; reflexivity |]. repeat split. Qed.

(** A stored stop with six digits can be lowered by an accepted update of a
    long position: the ratchet needs stops of five digits. *)
Example accepted_stop_below_six_digit_stop :
  _should_update_stop_loss 2 (1020000045 # 10000000) (100000004 # 1000000) 100 1
  = true /\
  _calculate_stop_loss 2 (1020000045 # 10000000) 100 1 < 100000004 # 1000000.
Proof. split; reflexivity. Qed.

(** What does hold between the two: against a five-digit stop, a candidate
    the test turns down is, rounded, not more protective than the stop. *)
Lemma rejected_long_stop pct price stop entry live_size :
  0 < live_size -> five_digits stop ->
  _should_update_stop_loss pct price stop entry live_size = false ->
  _calculate_stop_loss pct price entry live_size <= stop.
Proof.
  intros Hs Hg. unfold _should_update_stop_loss, _calculate_stop_loss.
  apply Qgtb_lt in Hs. rewrite Hs. intros Hu. apply Qgtb_false in Hu.
  rewrite <- (py_round5_id stop Hg). by apply py_round5_mono.
Qed.

Lemma rejected_short_stop pct price stop entry live_size :
  live_size <= 0 -> five_digits stop ->
  _should_update_stop_loss pct price stop entry live_size = false ->
  stop <= _calculate_stop_loss pct price entry live_size.
Proof.
  intros Hs Hg. unfold _should_update_stop_loss, _calculate_stop_loss.
  apply Qgtb_false in Hs. rewrite Hs. intros Hu. apply Qltb_false in Hu.
  rewrite <- (py_round5_id stop Hg) at 1. by apply py_round5_mono.
Qed.

(** ** The position store *)

Section StoreFacts.

Context {Data : Type} `{EqDecision Data}.
Variable json_dump : Data -> string.
Variable json_load : string -> option Data.
Variable empty : Data.
Variable fault : nat -> IOStep -> bool.
Variable torn : string -> string.
Variable backup_name : nat -> string.
Variable temp_name : nat -> string.

Local Abbreviation load := (_load_positions_data json_load empty fault).
Local Abbreviation attempt :=
  (save_attempt json_dump json_load fault torn backup_name temp_name).
Local Abbreviation loop :=
  (save_loop json_dump json_load fault torn backup_name temp_name).
Local Abbreviation save :=
  (_save_positions_data json_dump json_load fault torn backup_name temp_name).

Lemma load_total w : exists data, load w = (Return data, w).
Proof.
  destruct w as [fs evs].
  unfold _load_positions_data, try_except, bind, get_files, check_step,
    json_load_io, ret, raise. simpl.
  destruct (positions_file fs) as [content |]; [| by eexists].
  destruct (fault 0%nat OpenLoad); simpl; [by eexists |].
  destruct (json_load content); by eexists.
Qed.

Lemma load_corrupt w content :
  positions_file (files w) = Some content -> json_load content = None ->
  load w = (Return empty, w).
Proof.
  destruct w as [fs evs]. cbn [files]. intros Hfile Hload.
  unfold _load_positions_data, try_except, bind, get_files, check_step,
    json_load_io, ret, raise. simpl. rewrite Hfile.
  destruct (fault 0%nat OpenLoad); simpl; [reflexivity |].
  by rewrite Hload.
Qed.

(** C6. The load never raises and leaves the world as it is: it returns the
    empty document when the file is absent, when it cannot be opened and
    when its content is not valid JSON, and the parsed document
    otherwise. *)
Theorem load_never_raises w :
  _load_positions_data json_load empty fault w =
  (Return
     match positions_file (files w) with
     | None => empty
     | Some content =>
       if fault 0 OpenLoad then empty
       else match json_load content with
            | Some data => data
            | None => empty
            end
     end, w).
Proof.
  destruct w as [fs evs].
  unfold _load_positions_data, try_except, bind, get_files, check_step,
    json_load_io, ret, raise. simpl.
  destruct (positions_file fs) as [content |]; [| reflexivity].
  destruct (fault 0%nat OpenLoad); simpl; [reflexivity |].
  destruct (json_load content); reflexivity.
Qed.

Ltac io_unfold :=
  unfold save_failed, save_attempt, backup_existing, clean_up, verify, dump_to,
    write_backup, write_temp, replace_temp, replace_bak, restore_from_bak,
    check_step, json_load_io, try_except, bind, get_files,
    put_files, emit, ret, raise.

Ltac io_simpl :=
  cbn [files events fst snd positions_file positions_file_bak backup_dir
       temp_dir].

Ltac io_cases :=
  repeat (match goal with
          | |- context [fault ?k ?step] => destruct (fault k step) eqn:?
          | |- context [json_load ?c] => destruct (json_load c) eqn:?
          | |- context [decide ?P] => destruct (decide P)
          | |- context [positions_file ?fs] => destruct (positions_file fs) eqn:?
          | |- context [@lookup _ _ _ _ ?k ?m] => destruct (m !! k) eqn:?
          end; io_simpl).

(** An attempt logs its start and nothing else, and never touches the
    [.bak] file. *)
Lemma save_attempt_frame k data w :
  events (attempt k data w).2 = events w ++ [SaveAttempt (k + 1)] /\
  positions_file_bak (files (attempt k data w).2) = positions_file_bak (files w).
Proof.
  destruct w as [fs evs]. io_unfold. io_simpl.
  io_cases; split; reflexivity.
Qed.

(** With a snapshot file that is not valid JSON an attempt ends in the
    backup step, before anything is written for the new document. *)
Lemma save_attempt_corrupt k data w content :
  positions_file (files w) = Some content ->
  json_load content = None ->
  exists e w',
    attempt k data w = (Raise e, w') /\
    backup_failure fault k e /\
    positions_file (files w') = Some content /\
    positions_file_bak (files w') = positions_file_bak (files w) /\
    temp_dir (files w') = temp_dir (files w) /\
    events w' = events w ++ [SaveAttempt (k + 1)].
Proof.
  destruct w as [[pf pb bd td] evs]. cbn [files events positions_file].
  intros -> Hload. io_unfold.
  assert (Hfail : forall e bd',
             backup_failure fault k e ->
             exists e' w',
               (Raise e,
                {| files := {| positions_file := Some content;
                               positions_file_bak := pb;
                               backup_dir := bd';
                               temp_dir := td |};
                   events := evs ++ [SaveAttempt (k + 1)] |})
               = (@Raise unit e', w') /\
               backup_failure fault k e' /\
               positions_file (files w') = Some content /\
               positions_file_bak (files w') = pb /\
               temp_dir (files w') = td /\
               events w' = evs ++ [SaveAttempt (k + 1)]).
  { intros e bd' He. do 2 eexists. split; [reflexivity |]. by cbn. }
  io_simpl.
  destruct (fault k MakedirsBackup) eqn:F1; io_simpl.
  { apply Hfail. right. eauto 10. }
  destruct (fault k OpenBackupSrc) eqn:F2; io_simpl.
  { apply Hfail. right. eauto 10. }
  destruct (fault k OpenBackupDst) eqn:F3; io_simpl.
  { apply Hfail. right. eauto 10. }
  rewrite Hload. io_simpl. apply Hfail. by left.
Qed.

(** The handler of a failed attempt when there is no [.bak] file. *)
Lemma save_failed_no_bak k e continue_loop w :
  positions_file_bak (files w) = None ->
  save_failed fault k e continue_loop w =
  if decide (S k < MAX_RETRIES)%nat
  then continue_loop (S k)
         {| files := files w;
            events := events w ++ [SaveAttemptFailed (S k) e; Slept 1] |}
  else (Raise (Error "Failed to save positions data after all retries"),
        {| files := files w;
           events := events w ++ [SaveAttemptFailed (S k) e] |}).
Proof.
  destruct w as [[pf pb bd td] evs]. cbn [files events positions_file_bak].
  intros ->. io_unfold. cbv zeta. io_simpl.
  destruct (decide (S k < MAX_RETRIES)%nat); [| reflexivity].
  io_simpl. by rewrite <- app_assoc.
Qed.

Lemma try_except_attempt k data h w :
  try_except (attempt k data) h w =
  match (attempt k data w).1 with
  | Return a => (Return a, (attempt k data w).2)
  | Raise e => h e (attempt k data w).2
  end.
Proof.
  unfold try_except. by destruct (attempt k data w) as [[a | e] w'].
Qed.

(** The shape of every save when there is no [.bak] file: at most three
    attempts, a sleep of one second between two attempts, the fatal error
    after the third failure, and no restoration, whatever [.backup/]
    holds. *)
Lemma save_trace data w :
  positions_file_bak (files w) = None ->
  exists evs,
    events (save data w).2 = events w ++ evs /\
    match (save data w).1 with
    | Return _ =>
      evs = [SaveAttempt 1] \/
      (exists e1, evs = [SaveAttempt 1; SaveAttemptFailed 1 e1; Slept 1;
                         SaveAttempt 2]) \/
      (exists e1 e2, evs = [SaveAttempt 1; SaveAttemptFailed 1 e1; Slept 1;
                            SaveAttempt 2; SaveAttemptFailed 2 e2; Slept 1;
                            SaveAttempt 3])
    | Raise e =>
      e = Error "Failed to save positions data after all retries" /\
      exists e1 e2 e3,
        evs = [SaveAttempt 1; SaveAttemptFailed 1 e1; Slept 1;
               SaveAttempt 2; SaveAttemptFailed 2 e2; Slept 1;
               SaveAttempt 3; SaveAttemptFailed 3 e3]
    end.
Proof.
  intros Hbak. unfold _save_positions_data, MAX_RETRIES. cbn [save_loop].
  rewrite try_except_attempt.
  destruct (save_attempt_frame 0 data w) as [Ev1 Bak1].
  destruct (attempt 0 data w) as [[[] | e1] w1]; cbn [fst snd] in *.
  { eexists. split; [exact Ev1 |]. by left. }
  rewrite save_failed_no_bak by congruence.
  unfold MAX_RETRIES. rewrite decide_True by lia.
  rewrite try_except_attempt.
  set (w1' := {| files := files w1;
                 events := events w1 ++ [SaveAttemptFailed 1 e1; Slept 1] |}).
  destruct (save_attempt_frame 1 data w1') as [Ev2 Bak2].
  destruct (attempt 1 data w1') as [[[] | e2] w2]; cbn [fst snd] in *.
  { eexists. split.
    - rewrite Ev2. unfold w1'. cbn [events]. rewrite Ev1, <- !app_assoc.
      reflexivity.
    - right. left. by exists e1. }
  rewrite save_failed_no_bak by (rewrite Bak2; unfold w1'; cbn; congruence).
  unfold MAX_RETRIES. rewrite decide_True by lia.
  rewrite try_except_attempt.
  set (w2' := {| files := files w2;
                 events := events w2 ++ [SaveAttemptFailed 2 e2; Slept 1] |}).
  destruct (save_attempt_frame 2 data w2') as [Ev3 Bak3].
  destruct (attempt 2 data w2') as [[[] | e3] w3]; cbn [fst snd] in *.
  { eexists. split.
    - rewrite Ev3. unfold w2'. cbn [events]. rewrite Ev2. unfold w1'.
      cbn [events]. rewrite Ev1, <- !app_assoc. reflexivity.
    - right. right. by exists e1, e2. }
  rewrite save_failed_no_bak
    by (rewrite Bak3; unfold w2'; cbn; rewrite Bak2; unfold w1'; cbn;
        congruence).
  unfold MAX_RETRIES. rewrite decide_False by lia. cbn [fst snd events].
  eexists. split.
  - rewrite Ev3. unfold w2'. cbn [events]. rewrite Ev2. unfold w1'.
    cbn [events]. rewrite Ev1, <- !app_assoc. reflexivity.
  - split; [reflexivity |]. by exists e1, e2, e3.
Qed.

(** C9, as the code has it. When the snapshot file exists, is not valid
    JSON and has no [.bak] file beside it, each of the three attempts of a
    save ends in the backup step, the save raises its fatal error, and the
    file is the same afterwards; no temporary file was written; the load
    maps the file to the empty document all the while. *)
Theorem corrupt_file_blocks_save data w content :
  positions_file (files w) = Some content ->
  json_load content = None ->
  positions_file_bak (files w) = None ->
  exists e1 e2 e3 w',
    _save_positions_data json_dump json_load fault torn backup_name temp_name
      data w
    = (Raise (Error "Failed to save positions data after all retries"), w') /\
    backup_failure fault 0 e1 /\ backup_failure fault 1 e2 /\
    backup_failure fault 2 e3 /\
    events w' = events w ++ [SaveAttempt 1; SaveAttemptFailed 1 e1; Slept 1;
                             SaveAttempt 2; SaveAttemptFailed 2 e2; Slept 1;
                             SaveAttempt 3; SaveAttemptFailed 3 e3] /\
    positions_file (files w') = Some content /\
    temp_dir (files w') = temp_dir (files w) /\
    _load_positions_data json_load empty fault w' = (Return empty, w').
Proof.
  intros Hfile Hload Hbak.
  unfold _save_positions_data, MAX_RETRIES. cbn [save_loop].
  destruct (save_attempt_corrupt 0 data w content Hfile Hload)
    as (e1 & w1 & E1 & B1 & F1 & K1 & T1 & V1).
  rewrite try_except_attempt, E1. cbn [fst snd].
  rewrite save_failed_no_bak by congruence.
  unfold MAX_RETRIES. rewrite decide_True by lia.
  set (w1' := {| files := files w1;
                 events := events w1 ++ [SaveAttemptFailed 1 e1; Slept 1] |}).
  destruct (save_attempt_corrupt 1 data w1' content F1 Hload)
    as (e2 & w2 & E2 & B2 & F2 & K2 & T2 & V2).
  rewrite try_except_attempt, E2. cbn [fst snd].
  rewrite save_failed_no_bak by (rewrite K2; unfold w1'; cbn; congruence).
  unfold MAX_RETRIES. rewrite decide_True by lia.
  set (w2' := {| files := files w2;
                 events := events w2 ++ [SaveAttemptFailed 2 e2; Slept 1] |}).
  destruct (save_attempt_corrupt 2 data w2' content F2 Hload)
    as (e3 & w3 & E3 & B3 & F3 & K3 & T3 & V3).
  rewrite try_except_attempt, E3. cbn [fst snd].
  rewrite save_failed_no_bak
    by (rewrite K3; unfold w2'; cbn; rewrite K2; unfold w1'; cbn; congruence).
  unfold MAX_RETRIES. rewrite decide_False by lia.
  exists e1, e2, e3. eexists. split; [reflexivity |].
  cbn [files events]. repeat split; try assumption.
  - rewrite V3. unfold w2'. cbn [events]. rewrite V2. unfold w1'.
    cbn [events]. rewrite V1, <- !app_assoc. reflexivity.
  - rewrite T3. unfold w2'. cbn [files]. rewrite T2. unfold w1'.
    cbn [files]. exact T1.
  - by apply (load_corrupt _ content).
Qed.

End StoreFacts.

(** The corrupt file without a [.bak] file, and no fault in the file
    operations: all three attempts end with [JSONDecodeError]. *)
Lemma corrupt_file_blocks_save_witness :
  exists e1 e2 e3 w',
    _save_positions_data text_dump text_load no_fault torn_empty
      sample_backup_name sample_temp_name "{new}"%string (start corrupt_files)
    = (Raise (Error "Failed to save positions data after all retries"), w') /\
    backup_failure no_fault 0 e1 /\ backup_failure no_fault 1 e2 /\
    backup_failure no_fault 2 e3 /\
    events w' = events (start corrupt_files)
                ++ [SaveAttempt 1; SaveAttemptFailed 1 e1; Slept 1;
                    SaveAttempt 2; SaveAttemptFailed 2 e2; Slept 1;
                    SaveAttempt 3; SaveAttemptFailed 3 e3] /\
    positions_file (files w') = Some "garbage"%string /\
    temp_dir (files w') = temp_dir (files (start corrupt_files)) /\
    _load_positions_data text_load "{}"%string no_fault w' = (Return "{}"%string, w').
Proof.
  apply (corrupt_file_blocks_save text_dump text_load "{}"%string no_fault
           torn_empty sample_backup_name sample_temp_name "{new}"%string
           (start corrupt_files) "garbage"%string).
  - reflexivity.
  - reflexivity.
  - reflexivity.
Defined.

(** C9, the claim as stated fails: the snapshot file is not valid JSON, a
    [.bak] file lies beside it, and the save, after its third failed attempt,
    moves the [.bak] file over the snapshot file. *)
Lemma corrupt_file_replaced_from_bak :
  positions_file corrupt_files_with_bak = Some "garbage"%string /\
  text_load "garbage" = None /\
  save_over_corrupt_with_bak.1
  = Raise (Error "Failed to save positions data after all retries") /\
  positions_file (files save_over_corrupt_with_bak.2) = Some "{bak}"%string /\
  positions_file (files save_over_corrupt_with_bak.2)
  <> positions_file corrupt_files_with_bak.
Proof.
  split; [reflexivity |]. split; [reflexivity |].
  split; [vm_compute; reflexivity |]. split; [vm_compute; reflexivity |].
  vm_compute. discriminate.
Qed.

(** C1. A save that fails three times is claimed to attempt a restoration
    from the most recent backup when there is one.  The code breaks this: with
    a valid snapshot, an earlier backup in [.backup/] and every write of the
    temporary file failing, the save makes its three attempts one second apart
    and raises; the earlier backup and the backups made by the attempts are in
    [.backup/]; and no restoration is attempted (the code looks for
    [positions_data.json.bak] only, a file that no step of the save
    writes). *)
Theorem save_does_not_restore_from_backups :
  failed_save.1 = Raise (Error "Failed to save positions data after all retries") /\
  events failed_save.2
  = [SaveAttempt 1; SaveAttemptFailed 1 (OSError DumpTemp); Slept 1;
     SaveAttempt 2; SaveAttemptFailed 2 (OSError DumpTemp); Slept 1;
     SaveAttempt 3; SaveAttemptFailed 3 (OSError DumpTemp)] /\
  backup_dir (files failed_save.2) !! "positions_data_20250317_120000.json"%string
  = Some "{older}"%string /\
  backup_dir (files failed_save.2) !! sample_backup_name 2 = Some "{old}"%string /\
  ~ In RestoreFromBackup (events failed_save.2) /\
  positions_file (files failed_save.2) = Some "{old}"%string.
Proof.
  split; [vm_compute; reflexivity |]. split; [vm_compute; reflexivity |].
  split; [vm_compute; reflexivity |]. split; [vm_compute; reflexivity |].
  split; [| vm_compute; reflexivity].
  vm_compute. intuition discriminate.
Qed.

(** Of six backups the oldest goes. *)
Example prune_backups_keeps_five :
  prune_backups sample_backups
  = delete "positions_data_20250311_120000.json"%string sample_backups.
Proof. vm_compute. reflexivity. Qed.

(** A save without faults replaces the file, leaves a backup of the old
    document and empties [.temp/]; the load then returns the new document. *)
Example save_then_load :
  let saved :=
    _save_positions_data text_dump text_load no_fault torn_empty
      sample_backup_name sample_temp_name "{new}"%string (start sample_files) in
  saved.1 = Return tt /\
  events saved.2 = [SaveAttempt 1] /\
  positions_file (files saved.2) = Some "{new}"%string /\
  backup_dir (files saved.2) !! sample_backup_name 0 = Some "{old}"%string /\
  temp_dir (files saved.2) = ∅ /\
  (_load_positions_data text_load "{}"%string no_fault saved.2).1
  = Return "{new}"%string.
Proof. repeat split; vm_compute; reflexivity. Qed.

(** ** The whole run *)

(** [manage_stop_losses] never raises; with a product table it loads,
    reconciles, logs what the reconciliation did and hands the result to the
    save, whose failure it swallows. *)
Lemma manage_stop_losses_run pct pm oracle accepts now json_dump json_load
    fault torn backup_name temp_name l w :
  manage_stop_losses pct pm oracle accepts now json_dump json_load fault torn
    backup_name temp_name l w =
  if decide (pm = ∅) then (Return tt, w)
  else
    let positions_data :=
      match (_load_positions_data json_load {| positions := ∅ |} fault w).1 with
      | Return data => data
      | Raise _ => {| positions := ∅ |}
      end in
    let r :=
      reconcile_positions pct pm oracle accepts now (positions positions_data) l in
    (Return tt,
     (_save_positions_data json_dump json_load fault torn backup_name temp_name
        {| positions := r.1 |}
        {| files := files w; events := events w ++ r.2 |}).2).
Proof.
  unfold manage_stop_losses. unfold try_except at 1.
  destruct (decide (pm = ∅)); [reflexivity |].
  unfold bind at 1.
  destruct (load_total json_load {| positions := ∅ |} fault w) as [data ->].
  cbn [fst].
  destruct (reconcile_positions pct pm oracle accepts now _ l) as [stored' log].
  unfold bind, emit_all. cbn [fst snd].
  by destruct (_save_positions_data _ _ _ _ _ _ _ _) as [[[] | e] w'].
Qed.

(** ** More on the position store *)

Section StoreOutcomes.

Context {Data : Type} `{EqDecision Data}.
Variable json_dump : Data -> string.
Variable json_load : string -> option Data.
Variable empty : Data.
Variable fault : nat -> IOStep -> bool.
Variable torn : string -> string.
Variable backup_name : nat -> string.
Variable temp_name : nat -> string.

Local Abbreviation load := (_load_positions_data json_load empty fault).
Local Abbreviation attempt :=
  (save_attempt json_dump json_load fault torn backup_name temp_name).
Local Abbreviation save :=
  (_save_positions_data json_dump json_load fault torn backup_name temp_name).

Ltac store_unfold :=
  unfold save_failed, save_attempt, backup_existing, clean_up, verify, dump_to,
    write_backup, write_temp, replace_temp, replace_bak, restore_from_bak,
    check_step, json_load_io, try_except, bind, get_files,
    put_files, emit, ret, raise.

Ltac store_simpl :=
  cbn [files events fst snd positions_file positions_file_bak backup_dir
       temp_dir].

Ltac store_cases :=
  repeat (first
            [ rewrite lookup_insert_eq
            | match goal with
              | |- context [fault ?k ?step] => destruct (fault k step) eqn:?
              | |- context [json_load ?c] => destruct (json_load c) eqn:?
              | |- context [decide ?P] => destruct (decide P)
              | |- context [match ?o with Some _ => _ | None => _ end] =>
                  is_var o; destruct o
              end ]; store_simpl).

(** What one attempt does to the snapshot file: when it returns the file
    holds the dump of the new document, which parses back to it; when it
    raises the file is as before or, if the failure came after the
    replacement, holds that dump. *)
Lemma save_attempt_final k data w :
  match attempt k data w with
  | (Return _, w') =>
    positions_file (files w') = Some (json_dump data) /\
    json_load (json_dump data) = Some data
  | (Raise _, w') =>
    positions_file (files w') = positions_file (files w) \/
    (positions_file (files w') = Some (json_dump data) /\
     json_load (json_dump data) = Some data)
  end.
Proof.
  destruct w as [[pf pb bd td] evs]. store_unfold. store_simpl.
  store_cases; subst; auto.
Qed.


Lemma load_valid w content data :
  positions_file (files w) = Some content ->
  fault 0 OpenLoad = false ->
  json_load content = Some data ->
  load w = (Return data, w).
Proof.
  destruct w as [fs evs]. cbn [files]. intros Hfile Hopen Hload.
  unfold _load_positions_data, try_except, bind, get_files, check_step,
    json_load_io, ret, raise. simpl. by rewrite Hfile, Hopen, Hload.
Qed.

(** The handler of a failed attempt that is not the last: nothing is
    restored, the loop sleeps a second and goes on. *)
Lemma save_failed_retry k e continue_loop w :
  (S k < MAX_RETRIES)%nat ->
  save_failed fault k e continue_loop w =
  continue_loop (S k)
    {| files := files w;
       events := events w ++ [SaveAttemptFailed (S k) e; Slept 1] |}.
Proof.
  destruct w as [[pf pb bd td] evs]. intros Hlt. store_unfold. cbv zeta.
  store_simpl.
  assert (Hne : S k <> MAX_RETRIES) by lia.
  destruct pb; store_simpl; rewrite ?(decide_False _ _ Hne); store_simpl;
    rewrite (decide_True _ _ Hlt); store_simpl; by rewrite <- app_assoc.
Qed.

(** The handler of the last failed attempt: the [.bak] file, when there is
    one, is moved over the snapshot file unless that move fails, and the
    fatal error is raised. *)
Lemma save_failed_last e continue_loop w :
  exists w',
    save_failed fault 2 e continue_loop w
    = (Raise (Error "Failed to save positions data after all retries"), w') /\
    events w' = events w ++ SaveAttemptFailed 3 e
                  :: match positions_file_bak (files w) with
                     | Some _ => [RestoreFromBackup]
                     | None => []
                     end /\
    (positions_file (files w') = positions_file (files w) \/
     (is_Some (positions_file_bak (files w)) /\
      positions_file (files w') = positions_file_bak (files w))).
Proof.
  destruct w as [[pf pb bd td] evs]. store_unfold. cbv zeta. store_simpl.
  unfold MAX_RETRIES. destruct pb as [content |]; store_simpl.
  - rewrite decide_True by done. store_simpl.
    destruct (fault (3 - 1)%nat RestoreReplace); store_simpl;
      rewrite decide_False by lia; eexists; (split; [reflexivity |]);
      store_simpl; rewrite <- app_assoc; (split; [reflexivity |]); eauto.
  - rewrite decide_False by lia. eexists. split; [reflexivity |].
    store_simpl. split; [reflexivity |]. by left.
Qed.

Lemma try_except_save_attempt k data h w :
  try_except (attempt k data) h w =
  match (attempt k data w).1 with
  | Return a => (Return a, (attempt k data w).2)
  | Raise e => h e (attempt k data w).2
  end.
Proof.
  unfold try_except. by destruct (attempt k data w) as [[a | e] w'].
Qed.

(** Every save, step by step: the events it adds and the snapshot file it
    leaves, for a save that returns and for a save that raises. *)
Lemma save_outcome data w :
  exists evs,
    events (save data w).2 = events w ++ evs /\
    match (save data w).1 with
    | Return _ =>
      (evs = [SaveAttempt 1] \/
       (exists e1, evs = [SaveAttempt 1; SaveAttemptFailed 1 e1; Slept 1;
                          SaveAttempt 2]) \/
       (exists e1 e2, evs = [SaveAttempt 1; SaveAttemptFailed 1 e1; Slept 1;
                             SaveAttempt 2; SaveAttemptFailed 2 e2; Slept 1;
                             SaveAttempt 3])) /\
      positions_file (files (save data w).2) = Some (json_dump data) /\
      json_load (json_dump data) = Some data
    | Raise e =>
      e = Error "Failed to save positions data after all retries" /\
      (exists e1 e2 e3,
         evs = [SaveAttempt 1; SaveAttemptFailed 1 e1; Slept 1;
                SaveAttempt 2; SaveAttemptFailed 2 e2; Slept 1;
                SaveAttempt 3; SaveAttemptFailed 3 e3]
               ++ match positions_file_bak (files w) with
                  | Some _ => [RestoreFromBackup]
                  | None => []
                  end) /\
      (positions_file (files (save data w).2) = positions_file (files w) \/
       (positions_file (files (save data w).2) = Some (json_dump data) /\
        json_load (json_dump data) = Some data) \/
       (is_Some (positions_file_bak (files w)) /\
        positions_file (files (save data w).2) = positions_file_bak (files w)))
    end.
Proof.
  unfold _save_positions_data, MAX_RETRIES. cbn [save_loop].
  rewrite try_except_save_attempt.
  destruct (save_attempt_frame json_dump json_load fault torn backup_name
              temp_name 0 data w) as [Ev1 Bak1].
  pose proof (save_attempt_final 0 data w) as Fin1.
  destruct (attempt 0 data w) as [[[] | e1] w1]; cbn [fst snd] in *.
  { eexists. split; [exact Ev1 |]. split; [by left | exact Fin1]. }
  rewrite save_failed_retry by (unfold MAX_RETRIES; lia).
  rewrite try_except_save_attempt.
  set (w1' := {| files := files w1;
                 events := events w1 ++ [SaveAttemptFailed 1 e1; Slept 1] |}).
  destruct (save_attempt_frame json_dump json_load fault torn backup_name
              temp_name 1 data w1') as [Ev2 Bak2].
  pose proof (save_attempt_final 1 data w1') as Fin2.
  assert (Ev2' : events (attempt 1 data w1').2
                 = events w ++ [SaveAttempt 1; SaveAttemptFailed 1 e1; Slept 1;
                                SaveAttempt 2]).
  { rewrite Ev2. unfold w1'. cbn [events]. rewrite Ev1, <- !app_assoc.
    reflexivity. }
  destruct (attempt 1 data w1') as [[[] | e2] w2]; cbn [fst snd] in *.
  { eexists. split; [exact Ev2' |]. split; [| exact Fin2].
    right. left. by exists e1. }
  rewrite save_failed_retry by (unfold MAX_RETRIES; lia).
  rewrite try_except_save_attempt.
  set (w2' := {| files := files w2;
                 events := events w2 ++ [SaveAttemptFailed 2 e2; Slept 1] |}).
  destruct (save_attempt_frame json_dump json_load fault torn backup_name
              temp_name 2 data w2') as [Ev3 Bak3].
  pose proof (save_attempt_final 2 data w2') as Fin3.
  assert (Ev3' : events (attempt 2 data w2').2
                 = events w ++ [SaveAttempt 1; SaveAttemptFailed 1 e1; Slept 1;
                                SaveAttempt 2; SaveAttemptFailed 2 e2; Slept 1;
                                SaveAttempt 3]).
  { rewrite Ev3. unfold w2'. cbn [events]. rewrite Ev2', <- !app_assoc.
    reflexivity. }
  destruct (attempt 2 data w2') as [[[] | e3] w3]; cbn [fst snd] in *.
  { eexists. split; [exact Ev3' |]. split; [| exact Fin3].
    right. right. by exists e1, e2. }
  destruct (save_failed_last e3 (fun _ => ret tt) w3) as (w4 & -> & Ev4 & Fin4).
  cbn [fst snd].
  assert (Bak : positions_file_bak (files w3) = positions_file_bak (files w)).
  { rewrite Bak3. unfold w2'. cbn [files]. rewrite Bak2. unfold w1'.
    cbn [files]. exact Bak1. }
  rewrite Bak in *.
  eexists. split.
  { rewrite Ev4, Ev3'.
    rewrite <- app_assoc. reflexivity. }
  split; [reflexivity |]. split.
  { exists e1, e2, e3. by destruct (positions_file_bak (files w)). }
  assert (Hchain : positions_file (files w3) = positions_file (files w) \/
                   (positions_file (files w3) = Some (json_dump data) /\
                    json_load (json_dump data) = Some data)).
  { unfold w2', w1' in *. cbn [files] in *.
    destruct Fin3 as [-> | ?]; [| by right].
    destruct Fin2 as [-> | ?]; [| by right].
    exact Fin1. }
  destruct Fin4 as [-> | [? ->]]; [| by right; right].
  destruct Hchain as [-> | ?]; [by left | by right; left].
Qed.

(** X1. A save that returns has done its work: the snapshot file holds the
    dump of the document, that dump parses back to the document, and a load
    whose [open] does not fail returns the document. *)
Theorem save_returns_saved data w :
  let saved :=
    _save_positions_data json_dump json_load fault torn backup_name temp_name
      data w in
  saved.1 = Return tt ->
  positions_file (files saved.2) = Some (json_dump data) /\
  json_load (json_dump data) = Some data /\
  (fault 0 OpenLoad = false ->
   _load_positions_data json_load empty fault saved.2 = (Return data, saved.2)).
Proof.
  intros saved Hret. subst saved.
  destruct (save_outcome data w) as (evs & _ & Hout).
  rewrite Hret in Hout. destruct Hout as (_ & Hfile & Hload).
  split; [done |]. split; [done |]. intros Hopen.
  by apply (load_valid _ (json_dump data)).
Qed.

(** X2. Whatever fails and whenever, a save leaves in the snapshot file one
    of three things: what was there, the complete dump of the new document
    (which parses back to it), or the content of the [.bak] file.  A torn
    or unverified write never reaches the snapshot file. *)
Theorem save_never_tears data w :
  let saved :=
    _save_positions_data json_dump json_load fault torn backup_name temp_name
      data w in
  positions_file (files saved.2) = positions_file (files w) \/
  (positions_file (files saved.2) = Some (json_dump data) /\
   json_load (json_dump data) = Some data) \/
  (is_Some (positions_file_bak (files w)) /\
   positions_file (files saved.2) = positions_file_bak (files w)).
Proof.
  intros saved. subst saved.
  destruct (save_outcome data w) as (evs & _ & Hout).
  destruct (save data w).1 as [[] | e].
  - right. left. by destruct Hout as (_ & ? & ?).
  - by destruct Hout as (_ & _ & ?).
Qed.

(** X3. A document whose dump does not parse back to it is never saved: the
    save raises its fatal error, and the snapshot file is what it was, or
    the [.bak] file where there is one. *)
Theorem save_rejects_unfaithful_dump data w :
  let saved :=
    _save_positions_data json_dump json_load fault torn backup_name temp_name
      data w in
  json_load (json_dump data) <> Some data ->
  saved.1 = Raise (Error "Failed to save positions data after all retries") /\
  (positions_file (files saved.2) = positions_file (files w) \/
   (is_Some (positions_file_bak (files w)) /\
    positions_file (files saved.2) = positions_file_bak (files w))).
Proof.
  intros saved Hbad. subst saved.
  destruct (save_outcome data w) as (evs & _ & Hout).
  destruct (save data w).1 as [[] | e].
  - by destruct Hout as (_ & _ & ?).
  - destruct Hout as (-> & _ & [? | [[_ ?] | ?]]); try done; auto.
Qed.

(** X4. The retry policy of a save: at most three attempts, a sleep of one
    second between two attempts, a return right after the first attempt that
    succeeds, the fatal error after the third failure, and at that point an
    attempt to restore exactly when a [.bak] file was there. *)
Theorem save_retry_policy data w :
  let saved :=
    _save_positions_data json_dump json_load fault torn backup_name temp_name
      data w in
  exists evs,
    events saved.2 = events w ++ evs /\
    match saved.1 with
    | Return _ =>
      evs = [SaveAttempt 1] \/
      (exists e1, evs = [SaveAttempt 1; SaveAttemptFailed 1 e1; Slept 1;
                         SaveAttempt 2]) \/
      (exists e1 e2, evs = [SaveAttempt 1; SaveAttemptFailed 1 e1; Slept 1;
                            SaveAttempt 2; SaveAttemptFailed 2 e2; Slept 1;
                            SaveAttempt 3])
    | Raise e =>
      e = Error "Failed to save positions data after all retries" /\
      exists e1 e2 e3,
        evs = [SaveAttempt 1; SaveAttemptFailed 1 e1; Slept 1;
               SaveAttempt 2; SaveAttemptFailed 2 e2; Slept 1;
               SaveAttempt 3; SaveAttemptFailed 3 e3]
              ++ match positions_file_bak (files w) with
                 | Some _ => [RestoreFromBackup]
                 | None => []
                 end
    end.
Proof.
  intros saved. subst saved.
  destruct (save_outcome data w) as (evs & Hev & Hout).
  exists evs. split; [done |].
  destruct (save data w).1 as [[] | e].
  - by destruct Hout as (? & _).
  - by destruct Hout as (? & ? & _).
Qed.

Lemma save_attempt_clean data w :
  (forall step, fault 0 step = false) ->
  json_load (json_dump data) = Some data ->
  (forall content,
     positions_file (files w) = Some content -> is_Some (json_load content)) ->
  exists w',
    attempt 0 data w = (Return tt, w') /\
    events w' = events w ++ [SaveAttempt 1] /\
    positions_file (files w') = Some (json_dump data) /\
    positions_file_bak (files w') = positions_file_bak (files w) /\
    temp_dir (files w') = ∅ /\
    backup_dir (files w')
    = prune_backups
        match positions_file (files w) ≫= json_load with
        | Some old => <[backup_name 0 := json_dump old]> (backup_dir (files w))
        | None => backup_dir (files w)
        end.
Proof.
  intros Hok Hdump Hold.
  destruct w as [[pf pb bd td] evs]. cbn [files positions_file] in Hold.
  store_unfold. store_simpl. rewrite !Hok. store_simpl.
  destruct pf as [content |]; store_simpl.
  - destruct (Hold content eq_refl) as [old Hparse].
    repeat (first [ rewrite Hok | rewrite lookup_insert_eq | rewrite Hparse
                  | rewrite Hdump | rewrite decide_True by done ];
            store_simpl).
    eexists. split; [reflexivity |]. store_simpl. cbn. rewrite Hparse.
    rewrite insert_insert_eq. done.
  - repeat (first [ rewrite Hok | rewrite lookup_insert_eq
                  | rewrite Hdump | rewrite decide_True by done ];
            store_simpl).
    eexists. split; [reflexivity |]. store_simpl. done.
Qed.

(** A save whose first attempt meets no failure returns after it, and the
    load then returns the document. *)
Lemma save_one_attempt data w :
  (forall step, fault 0 step = false) ->
  json_load (json_dump data) = Some data ->
  (forall content,
     positions_file (files w) = Some content -> is_Some (json_load content)) ->
  exists w',
    save data w = (Return tt, w') /\
    events w' = events w ++ [SaveAttempt 1] /\
    positions_file (files w') = Some (json_dump data) /\
    load w' = (Return data, w').
Proof.
  intros Hok Hdump Hold.
  destruct (save_attempt_clean data w Hok Hdump Hold)
    as (w' & Hatt & Hev & Hfile & _).
  exists w'. unfold _save_positions_data, MAX_RETRIES. cbn [save_loop].
  rewrite try_except_save_attempt, Hatt. cbn [fst snd].
  split; [done |]. split; [done |]. split; [done |].
  by apply (load_valid _ (json_dump data)).
Qed.

(** X5. Save, then load.  When no file operation of the first attempt fails,
    the dump of the document parses back to it and the snapshot file, if
    there is one, parses, the save returns after one attempt: the snapshot
    file holds the dump, [.temp/] is empty, the old document has been dumped
    again (not copied) into the backup of the attempt before the pruning,
    the [.bak] file is untouched, and the load returns the document. *)
Theorem save_then_load_round_trip data w :
  (forall step, fault 0 step = false) ->
  json_load (json_dump data) = Some data ->
  (forall content,
     positions_file (files w) = Some content -> is_Some (json_load content)) ->
  exists w',
    _save_positions_data json_dump json_load fault torn backup_name temp_name
      data w = (Return tt, w') /\
    events w' = events w ++ [SaveAttempt 1] /\
    positions_file (files w') = Some (json_dump data) /\
    positions_file_bak (files w') = positions_file_bak (files w) /\
    temp_dir (files w') = ∅ /\
    backup_dir (files w')
    = prune_backups
        match positions_file (files w) ≫= json_load with
        | Some old => <[backup_name 0 := json_dump old]> (backup_dir (files w))
        | None => backup_dir (files w)
        end /\
    _load_positions_data json_load empty fault w' = (Return data, w').
Proof.
  intros Hok Hdump Hold.
  destruct (save_attempt_clean data w Hok Hdump Hold)
    as (w' & Hatt & Hev & Hfile & Hbak & Htemp & Hdir).
  exists w'. unfold _save_positions_data, MAX_RETRIES. cbn [save_loop].
  rewrite try_except_save_attempt, Hatt. cbn [fst snd].
  do 6 (split; [done |]).
  apply (load_valid _ (json_dump data)); [done | apply Hok | done].
Qed.

End StoreOutcomes.

(** ** Pruning the backups *)

Lemma string_le_total : Total string_le.
Proof. intros a b. apply String.leb_total. Qed.

Lemma string_le_antisymm : AntiSymm (=) string_le.
Proof. intros a b. apply String.leb_antisym. Qed.

Lemma string_le_trans : Transitive string_le.
Proof.
  unfold string_le, String.leb. intros a.
  induction a as [| x a IH]; intros [| y b] [| z c]; simpl; try done.
  unfold Ascii.compare.
  destruct (N.compare_spec (Ascii.N_of_ascii x) (Ascii.N_of_ascii y)),
    (N.compare_spec (Ascii.N_of_ascii y) (Ascii.N_of_ascii z)),
    (N.compare_spec (Ascii.N_of_ascii x) (Ascii.N_of_ascii z)); try done; try lia.
  apply IH.
Qed.

Lemma lookup_foldr_delete (dir : gmap string string) (names : list string) name :
  foldr (fun old_backup d => delete old_backup d) dir names !! name
  = if decide (name ∈ names) then None else dir !! name.
Proof.
  induction names as [| n names IH]; cbn [foldr].
  - destruct (decide (name ∈ [])) as [Hin |]; [| done].
    exfalso. by apply (not_elem_of_nil name).
  - rewrite lookup_delete, IH.
    destruct (decide (name ∈ n :: names)) as [Hin | Hout].
    + apply elem_of_cons in Hin as [-> | Hin].
      * by rewrite decide_True.
      * rewrite (decide_True _ _ Hin). by destruct (decide (n = name)).
    + rewrite decide_False by (intros ->; apply Hout; by left).
      rewrite decide_False; [done |]. intros ?. apply Hout. by right.
Qed.

Lemma elem_of_list_backups dir name :
  name ∈ list_backups dir <->
  String.prefix "positions_data_" name = true /\ is_Some (dir !! name).
Proof.
  unfold list_backups. rewrite merge_sort_Permutation, list_elem_of_filter.
  by rewrite elem_of_elements, elem_of_dom.
Qed.

Lemma NoDup_list_backups dir : NoDup (list_backups dir).
Proof.
  unfold list_backups. rewrite merge_sort_Permutation.
  apply NoDup_filter, NoDup_elements.
Qed.

Lemma StronglySorted_list_backups dir : StronglySorted string_le (list_backups dir).
Proof.
  apply (@StronglySorted_merge_sort _ string_le _ string_le_trans string_le_total).
Qed.

Lemma prune_backups_list dir :
  prune_backups dir =
  if decide (5 < length (list_backups dir))%nat
  then foldr (fun old_backup d => delete old_backup d) dir
         (take (length (list_backups dir) - 5) (list_backups dir))
  else dir.
Proof. reflexivity. Qed.

(** X6. Pruning leaves alone every file whose name does not begin with
    [positions_data_], never changes the content of a file it keeps, and of
    the backups keeps the five greatest names (all of them when there are no
    more than five), which for the timestamped names are the five latest. *)
Theorem prune_backups_keeps_latest dir :
  (forall name,
     String.prefix "positions_data_" name = false ->
     prune_backups dir !! name = dir !! name) /\
  (forall name content,
     prune_backups dir !! name = Some content -> dir !! name = Some content) /\
  list_backups (prune_backups dir)
  = drop (length (list_backups dir) - 5) (list_backups dir).
Proof.
  rewrite prune_backups_list.
  destruct (decide (5 < length (list_backups dir))%nat) as [Hmany | Hfew].
  2:{ split; [done |]. split; [done |].
      replace (length (list_backups dir) - 5)%nat with 0%nat by lia. done. }
  set (n := (length (list_backups dir) - 5)%nat).
  split; [| split].
  - intros name Hname. rewrite lookup_foldr_delete, decide_False; [done |].
    intros Hin. apply (sublist_subseteq _ _ (sublist_take _ _)) in Hin.
    apply elem_of_list_backups in Hin as [Hp _].
    congruence.
  - intros name content. rewrite lookup_foldr_delete. by case_decide.
  - apply (@StronglySorted_unique _ string_le string_le_antisymm).
    + apply StronglySorted_list_backups.
    + pose proof (StronglySorted_list_backups dir) as Hs.
      rewrite <- (take_drop n (list_backups dir)) in Hs.
      by apply StronglySorted_app_1_r in Hs.
    + pose proof (NoDup_list_backups dir) as Hnd.
      rewrite <- (take_drop n (list_backups dir)) in Hnd.
      apply NoDup_app in Hnd as (_ & Hdisj & Hdrop).
      apply NoDup_Permutation; [apply NoDup_list_backups | done |].
      intros name. rewrite elem_of_list_backups, lookup_foldr_delete.
      split.
      * intros [Hp Hin]. case_decide as Htake; [by destruct Hin |].
        assert (Hall : name ∈ list_backups dir)
          by by apply elem_of_list_backups.
        rewrite <- (take_drop n (list_backups dir)) in Hall.
        apply elem_of_app in Hall as [? | ?]; done.
      * intros Hin.
        assert (Hall : name ∈ list_backups dir).
        { rewrite <- (take_drop n (list_backups dir)).
          apply elem_of_app. by right. }
        apply elem_of_list_backups in Hall as [Hp Hsome].
        split; [done |]. rewrite decide_False; [done |].
        intros Htake. by apply (Hdisj name).
Qed.

(** ** More on one run over the dictionary *)

Section ManagerOutcomes.

Variable pct : Q.
Variable pm : gmap string Z.
Variable oracle : string -> Q.
Variable accepts : Z -> Q -> string -> Side -> bool.
Variable now : string.

Local Abbreviation step := (entry_step pct pm oracle accepts now).

(** X7. After a run the store holds live symbols only. *)
Theorem reconcile_keeps_live_only stored l s :
  is_Some ((reconcile_positions pct pm oracle accepts now stored l).1 !! s) ->
  In s (map product_symbol l).
Proof.
  rewrite reconcile_positions_fold. cbn [fst].
  rewrite lookup_remove_closed_positions.
  case_decide as Hs; [| by intros [? ?]].
  intros _. apply elem_of_list_to_set in Hs. by apply list_elem_of_In.
Qed.

(** With no live position reported the run empties the store, whatever it
    held, and places no order. *)
Theorem reconcile_without_live_positions stored :
  reconcile_positions pct pm oracle accepts now stored [] = (∅, []).
Proof.
  rewrite reconcile_positions_fold. cbn [fold_left fst snd map]. f_equal.
  apply map_eq. intros s. rewrite lookup_remove_closed_positions, lookup_empty.
  case_decide as Hs; [| done]. apply elem_of_list_to_set in Hs.
  exfalso. by apply (not_elem_of_nil s).
Qed.

(** X8. What a run may change in an entry it keeps.  The entry price and the
    size never change.  Either the stop, the count of stop movements and the
    time of the last update are all as before, or the test for an update
    held and the count went up by exactly one, the time is that of the run
    and the stop is what the formula gives for the price looked up. *)
Theorem reconcile_entry_changes stored l p e e' :
  NoDup (map product_symbol l) -> In p l ->
  stored !! product_symbol p = Some e ->
  (reconcile_positions pct pm oracle accepts now stored l).1
    !! product_symbol p = Some e' ->
  entry_price e' = entry_price e /\
  size e' = size e /\
  ((stop_loss e' = stop_loss e /\
    stop_loss_updates e' = stop_loss_updates e /\
    last_update e' = last_update e) \/
   (_should_update_stop_loss pct (oracle (product_symbol p)) (stop_loss e)
      (entry_price e) (position_size p) = true /\
    stop_loss e'
    = _calculate_stop_loss pct (oracle (product_symbol p)) (entry_price e)
        (position_size p) /\
    stop_loss_updates e' = (stop_loss_updates e + 1)%Z /\
    last_update e' = now)).
Proof.
  intros Hnd Hp He.
  destruct (reconcile_live_entry pct pm oracle accepts now stored l p Hnd Hp)
    as [-> _].
  rewrite He. unfold entry_step.
  destruct (pm !! product_symbol p) as [pid |];
    [| intros [= <-]; split; [done |]; split; [done |]; by left].
  destruct (pid =? 0)%Z;
    [intros [= <-]; split; [done |]; split; [done |]; by left |].
  destruct (Qeq_bool (oracle (product_symbol p)) 0);
    [intros [= <-]; split; [done |]; split; [done |]; by left |].
  cbn [stop_loss set_current_price entry_price].
  destruct (if Qgtb (position_size p) 0
            then Qle_bool (oracle (product_symbol p)) (stop_loss e)
            else Qgeb (oracle (product_symbol p)) (stop_loss e)).
  { cbn [fst].
    destruct (place_order accepts pid (Qabs (position_size p)) "market_order"
                (if Qgtb (position_size p) 0 then sell else buy));
      [discriminate |].
    intros [= <-]. cbn. split; [done |]. split; [done |]. by left. }
  destruct (_should_update_stop_loss pct (oracle (product_symbol p))
              (stop_loss e) (entry_price e) (position_size p)) eqn:Hup;
    cbn [fst]; intros [= <-]; cbn; (split; [done |]); (split; [done |]).
  - by right.
  - by left.
Qed.

(** X9. A breached stop closes the position.  For a stored symbol with a
    positive product id and a price looked up: when the live position is long
    and the price is at or below the stop, or short and the price at or above
    it, and the exchange fills the order, the run places one market order of
    the full size on the other side (sell for a long, buy for a short) and
    the entry is gone from the store. *)
Theorem breached_position_closed stored l p e pid :
  NoDup (map product_symbol l) -> In p l ->
  stored !! product_symbol p = Some e ->
  pm !! product_symbol p = Some pid -> (0 < pid)%Z ->
  ~ oracle (product_symbol p) == 0 ->
  (0 < position_size p /\ oracle (product_symbol p) <= stop_loss e) \/
  (position_size p < 0 /\ stop_loss e <= oracle (product_symbol p)) ->
  accepts pid (Qabs (position_size p)) "market_order"
    (if Qgtb (position_size p) 0 then sell else buy) = true ->
  (reconcile_positions pct pm oracle accepts now stored l).1
    !! product_symbol p = None /\
  filter (fun ev => is_order_for (product_symbol p) ev = true)
    (reconcile_positions pct pm oracle accepts now stored l).2
  = [OrderPlaced (product_symbol p) pid (Qabs (position_size p)) "market_order"
       (if Qgtb (position_size p) 0 then sell else buy) true].
Proof.
  intros Hnd Hp He Hpm Hpid Hprice Hhit Hfill.
  destruct (reconcile_live_entry pct pm oracle accepts now stored l p Hnd Hp)
    as [-> ->].
  rewrite He. unfold entry_step. rewrite Hpm.
  assert (Hz : (pid =? 0)%Z = false) by (apply Z.eqb_neq; lia).
  rewrite Hz.
  destruct (Qeq_bool (oracle (product_symbol p)) 0) eqn:E;
    [apply Qeq_bool_iff in E; contradiction |].
  cbn [stop_loss set_current_price entry_price].
  assert (Hsize : Qgtb (Qabs (position_size p)) 0 = true).
  { apply Qgtb_lt.
    destruct Hhit as [[Hs _] | [Hs _]].
    - rewrite Qabs_pos; lra.
    - rewrite Qabs_neg; lra. }
  assert (Hplace : place_order accepts pid (Qabs (position_size p))
                     "market_order"
                     (if Qgtb (position_size p) 0 then sell else buy) = true).
  { unfold place_order.
    assert (Hpos : (0 <? pid)%Z = true) by (apply Z.ltb_lt; lia).
    rewrite Hpos, Hsize. cbn. exact Hfill. }
  assert (Hit : (if Qgtb (position_size p) 0
                 then Qle_bool (oracle (product_symbol p)) (stop_loss e)
                 else Qgeb (oracle (product_symbol p)) (stop_loss e)) = true).
  { destruct Hhit as [[Hs Hle] | [Hs Hle]].
    - apply Qgtb_lt in Hs. rewrite Hs. by apply Qle_bool_iff.
    - assert (Hf : Qgtb (position_size p) 0 = false) by (apply Qgtb_false; lra).
      rewrite Hf. by apply Qgeb_le. }
  rewrite Hit, Hplace. cbn [fst snd]. split; [done |].
  rewrite filter_cons_False by (cbn; congruence).
  rewrite filter_cons_True by (cbn; by apply bool_decide_eq_true).
  done.
Qed.

(** X10. Every order of a run is owed to a breach.  An order in the log is a
    market order for a live symbol that was stored when the run began and has
    a product id; its size is the full size of the live position; and it is a
    sell for a long whose price was at or below the stored stop, a buy for a
    position not long whose price was at or above it. *)
Theorem orders_follow_breaches stored l s pid sz ty sd ok :
  NoDup (map product_symbol l) ->
  In (OrderPlaced s pid sz ty sd ok)
     (reconcile_positions pct pm oracle accepts now stored l).2 ->
  ty = "market_order"%string /\
  pm !! s = Some pid /\
  exists p e,
    In p l /\ product_symbol p = s /\ stored !! s = Some e /\
    sz = Qabs (position_size p) /\
    ((0 < position_size p /\ sd = sell /\ oracle s <= stop_loss e) \/
     (position_size p <= 0 /\ sd = buy /\ stop_loss e <= oracle s)).
Proof.
  intros Hnd Hin.
  pose proof (order_symbol_live _ _ _ _ _ _ _ _ _ _ _ _ _ Hin) as Hs.
  apply in_map_iff in Hs as (p & <- & Hp).
  apply (reconcile_live_order _ _ _ _ _ _ _ _ _ _ _ _ _ Hnd Hp) in Hin.
  unfold entry_step in Hin.
  destruct (pm !! product_symbol p) as [pid' |] eqn:Hpm; [| destruct Hin].
  destruct (pid' =? 0)%Z; [destruct Hin |].
  destruct (Qeq_bool (oracle (product_symbol p)) 0);
    [destruct Hin as [Hin | []]; discriminate |].
  destruct (stored !! product_symbol p) as [e |] eqn:He;
    [| destruct Hin as [Hin | []]; discriminate].
  cbn [stop_loss set_current_price entry_price] in Hin.
  destruct (Qgtb (position_size p) 0) eqn:Hlong.
  - destruct (Qle_bool (oracle (product_symbol p)) (stop_loss e)) eqn:Hit.
    + cbn [snd] in Hin. destruct Hin as [Hin | [Hin | []]]; [discriminate |].
      injection Hin as <- <- <- <- _.
      split; [done |]. split; [done |]. exists p, e.
      repeat split; try done. left.
      apply Qgtb_lt in Hlong. apply Qle_bool_iff in Hit. done.
    + destruct (_should_update_stop_loss _ _ _ _ _);
        destruct Hin as [Hin | []]; discriminate.
  - destruct (Qgeb (oracle (product_symbol p)) (stop_loss e)) eqn:Hit.
    + cbn [snd] in Hin. destruct Hin as [Hin | [Hin | []]]; [discriminate |].
      injection Hin as <- <- <- <- _.
      split; [done |]. split; [done |]. exists p, e.
      repeat split; try done. right.
      apply Qgtb_false in Hlong. apply Qgeb_le in Hit. done.
    + destruct (_should_update_stop_loss _ _ _ _ _);
        destruct Hin as [Hin | []]; discriminate.
Qed.

(** X11. A live symbol without a product id, or with the id 0, is passed over:
    its stored entry is what it was, no price is looked up for it and no
    order is placed for it; the other symbols are processed as usual. *)
Theorem unmapped_symbol_skipped stored l s :
  In s (map product_symbol l) ->
  pm !! s = None \/ pm !! s = Some 0%Z ->
  (reconcile_positions pct pm oracle accepts now stored l).1 !! s = stored !! s /\
  no_order_for s (reconcile_positions pct pm oracle accepts now stored l).2 /\
  forall price,
    ~ In (PriceLookup s price)
        (reconcile_positions pct pm oracle accepts now stored l).2.
Proof.
  intros Hlive Hpm.
  assert (Hskip : forall p o, In p l -> product_symbol p = s ->
                    (step p o).1 = o /\
                    filter (fun ev => is_order_for s ev = true) (step p o).2 = []).
  { intros p o _ <-. unfold entry_step.
    by destruct Hpm as [-> | ->]. }
  destruct (fold_process_untouched pct pm oracle accepts now s l Hskip stored [])
    as [Hm Ho].
  split; [| split].
  - rewrite reconcile_lookup_live by done. exact Hm.
  - apply no_order_for_filter. rewrite reconcile_positions_fold. simpl.
    by rewrite Ho.
  - intros price Hin.
    apply reconcile_lookup_answer in Hin as (_ & pid & Hpid & Hz).
    destruct Hpm as [Hn | Hn]; rewrite Hn in Hpid; [done |].
    by injection Hpid as <-.
Qed.

(** X12. Symbols do not touch each other.  With one position per symbol, what
    a run leaves for a live symbol, and the orders it places for it, depend
    on the stored entry of that symbol and on its live position alone: two
    runs that agree on these agree on the symbol, whatever the other
    positions and the rest of the store are. *)
Theorem reconcile_symbol_independent stored stored' l l' p :
  NoDup (map product_symbol l) -> NoDup (map product_symbol l') ->
  In p l -> In p l' ->
  stored !! product_symbol p = stored' !! product_symbol p ->
  (reconcile_positions pct pm oracle accepts now stored l).1 !! product_symbol p
  = (reconcile_positions pct pm oracle accepts now stored' l').1
      !! product_symbol p /\
  filter (fun ev => is_order_for (product_symbol p) ev = true)
    (reconcile_positions pct pm oracle accepts now stored l).2
  = filter (fun ev => is_order_for (product_symbol p) ev = true)
      (reconcile_positions pct pm oracle accepts now stored' l').2.
Proof.
  intros Hnd Hnd' Hp Hp' Hsame.
  destruct (reconcile_live_entry pct pm oracle accepts now stored l p Hnd Hp)
    as [-> ->].
  destruct (reconcile_live_entry pct pm oracle accepts now stored' l' p Hnd' Hp')
    as [-> ->].
  by rewrite Hsame.
Qed.

End ManagerOutcomes.

(** ** More on the calculator *)


(** X14. The test for an update and the formula never pull apart: against a
    stop of at most five fractional digits, a candidate the test accepts is,
    once rounded, at least as protective as the stop, and a candidate it
    turns down is not more protective. *)
Theorem stop_test_agrees_with_formula pct price stop entry live_size :
  five_digits stop ->
  let accepted := _should_update_stop_loss pct price stop entry live_size in
  let new_stop := _calculate_stop_loss pct price entry live_size in
  (0 < live_size ->
   (accepted = true -> stop <= new_stop) /\
   (accepted = false -> new_stop <= stop)) /\
  (live_size <= 0 ->
   (accepted = true -> new_stop <= stop) /\
   (accepted = false -> stop <= new_stop)).
Proof.
  intros Hstop accepted new_stop. split; intros Hs; split; intros Ha.
  - by apply (accepted_long_stop pct price stop entry live_size).
  - by apply (rejected_long_stop pct price stop entry live_size).
  - by apply (accepted_short_stop pct price stop entry live_size).
  - by apply (rejected_short_stop pct price stop entry live_size).
Qed.

(** ** The product list and the live positions *)

Lemma endswith_spec s suffix :
  endswith s suffix = true <-> exists pre, s = (pre ++ suffix)%string.
Proof.
  induction s as [| a s IH]; cbn [endswith].
  - rewrite orb_false_r, String.eqb_eq. split.
    + intros <-. by exists ""%string.
    + intros [[| b pre] Heq]; [done | discriminate].
  - rewrite orb_true_iff, String.eqb_eq, IH. split.
    + intros [<- | [pre ->]]; [by exists ""%string | by exists (String a pre)].
    + intros [[| b pre] Heq]; [by left | right].
      injection Heq as -> ->. by exists pre.
Qed.

Lemma usd_products_In result : forall products product,
  usd_products result = Some products ->
  In product products <->
  In (ProductDict (prod_id product) (SymbolStr (prod_symbol product))) result /\
  endswith (prod_symbol product) "USD" = true.
Proof.
  induction result as [| [| raw_id [| | s]] rest IH]; intros products product;
    cbn [usd_products].
  - intros [= <-]. cbn [In]. tauto.
  - intros Heq. rewrite (IH _ _ Heq). cbn [In]. intuition discriminate.
  - intros Heq. rewrite (IH _ _ Heq). cbn [In]. intuition discriminate.
  - discriminate.
  - destruct (usd_products rest) as [ps |] eqn:Hrest; [| discriminate].
    intros [= <-]. specialize (IH ps product eq_refl). cbn [In].
    destruct (endswith s "USD") eqn:Hs.
    + cbn [In]. rewrite IH. split.
      * intros [<- | [H1 H2]]; cbn [prod_id prod_symbol]; [by split; [left |] |].
        by split; [right |].
      * intros [[[= -> ->] | H1] H2]; [left; by destruct product | by right].
    + rewrite IH. split; [intros [H1 H2]; by split; [right |] |].
      intros [[[= -> ->] | H1] H2]; [congruence | done].
Qed.

Lemma usd_products_malformed result raw_id :
  In (ProductDict raw_id SymbolNotStr) result -> usd_products result = None.
Proof.
  induction result as [| [| i [| | s]] rest IH]; cbn [In usd_products].
  - done.
  - intros [[=] | Hin]. by apply IH.
  - intros [[=] | Hin]. by apply IH.
  - done.
  - intros [[=] | Hin]. by rewrite (IH Hin).
Qed.

Lemma usd_products_well_formed result :
  (forall raw_id, ~ In (ProductDict raw_id SymbolNotStr) result) ->
  is_Some (usd_products result).
Proof.
  induction result as [| [| i [| | s]] rest IH]; cbn [usd_products]; intros Hwf.
  - done.
  - apply IH. intros j Hj. apply (Hwf j). by right.
  - apply IH. intros j Hj. apply (Hwf j). by right.
  - exfalso. apply (Hwf i). by left.
  - destruct IH as [ps ->]; [| done]. intros j Hj. apply (Hwf j). by right.
Qed.

(** X15. [_get_all_usd_products] lists nothing but products of the response
    whose symbol is a string that ends in USD, and when the response is well
    formed it lists every one of them. *)
Theorem usd_products_listed status_code data result product :
  products_success data = true ->
  products_result data = Some result ->
  (forall raw_id, ~ In (ProductDict raw_id SymbolNotStr) result) ->
  In product (_get_all_usd_products (Response status_code (Some data))) <->
  In (ProductDict (prod_id product) (SymbolStr (prod_symbol product))) result /\
  exists pre, prod_symbol product = (pre ++ "USD")%string.
Proof.
  intros Hok Hres Hwf. cbn [_get_all_usd_products]. unfold usd_products_of_body.
  rewrite Hok, Hres. cbn [negb].
  destruct (usd_products_well_formed result Hwf) as [ps Hps]. rewrite Hps.
  cbn [default]. rewrite (usd_products_In _ _ _ Hps). by rewrite endswith_spec.
Qed.

(** X16. One product whose symbol is present and not a string empties the
    product list, whatever else the response holds. *)
Theorem malformed_symbol_empties_products status_code data result raw_id :
  products_result data = Some result ->
  In (ProductDict raw_id SymbolNotStr) result ->
  _get_all_usd_products (Response status_code (Some data)) = [] /\
  _get_all_usd_products_signals (Response status_code (Some data)) = [].
Proof.
  intros Hres Hin. cbn [_get_all_usd_products _get_all_usd_products_signals].
  unfold usd_products_of_body.
  rewrite Hres, (usd_products_malformed _ _ Hin). cbn [default].
  split; [by destruct (products_success data) |].
  by destruct (status_code =? 200)%Z, (products_success data).
Qed.

Lemma usd_products_of_body_sound data product :
  In product (usd_products_of_body data) ->
  exists pre, prod_symbol product = (pre ++ "USD")%string.
Proof.
  unfold usd_products_of_body. destruct (negb _); [done |].
  destruct (products_result data) as [result |]; [| done].
  destruct (usd_products result) as [ps |] eqn:Hps; [| done]. cbn [default].
  rewrite (usd_products_In _ _ _ Hps), endswith_spec. by intros [_ H].
Qed.

Lemma _get_all_usd_products_sound response product :
  In product (_get_all_usd_products response) ->
  exists pre, prod_symbol product = (pre ++ "USD")%string.
Proof.
  destruct response as [| st [data |]]; cbn [_get_all_usd_products]; [done | | done].
  apply usd_products_of_body_sound.
Qed.

Lemma _get_all_usd_products_signals_sound response product :
  In product (_get_all_usd_products_signals response) ->
  exists pre, prod_symbol product = (pre ++ "USD")%string.
Proof.
  destruct response as [| status_code [data |]];
    cbn [_get_all_usd_products_signals];
    [done | | by destruct (status_code =? 200)%Z].
  destruct (negb _); [done |]. apply usd_products_of_body_sound.
Qed.

Lemma open_position_of_Some product response p :
  open_position_of product response = Some p ->
  product_symbol p = prod_symbol product /\ ~ position_size p == 0.
Proof.
  unfold open_position_of.
  destruct response as [| st [[[] [position |]] |]]; try discriminate.
  cbn [position_success position_result].
  destruct (Qeq_bool _ 0) eqn:Hz; [discriminate |].
  intros [= <-]. cbn [product_symbol position_size]. split; [done |].
  intros Hq. apply Qeq_bool_iff in Hq. congruence.
Qed.

Lemma omap_open_positions (api : option Z -> HttpResponse PositionBody) products :
  let positions :=
    omap (fun product => open_position_of product (api (prod_id product)))
      products in
  sublist (map product_symbol positions) (map prod_symbol products) /\
  Forall (fun p => ~ position_size p == 0) positions.
Proof.
  induction products as [| product products [IH1 IH2]]; cbn [omap list_omap map].
  - split; constructor.
  - destruct (open_position_of product _) as [p |] eqn:Hp.
    + destruct (open_position_of_Some _ _ _ Hp) as [Hs Hz]. cbn [map].
      rewrite Hs. split; [by apply sublist_skip | by constructor].
    + split; [by apply sublist_cons | done].
Qed.

(** X17. The live positions follow the product list: their symbols are, in
    order, symbols of USD products, none has the size 0, and when the
    exchange lists every symbol once there is one live position per symbol
    at most. *)
Theorem open_positions_of_listed_products products_response positions_api :
  let positions := get_open_positions products_response positions_api in
  let products := _get_all_usd_products products_response in
  sublist (map product_symbol positions) (map prod_symbol products) /\
  Forall (fun p => ~ position_size p == 0 /\
                   exists pre, product_symbol p = (pre ++ "USD")%string)
    positions /\
  (NoDup (map prod_symbol products) -> NoDup (map product_symbol positions)).
Proof.
  intros positions products.
  destruct (omap_open_positions positions_api products) as [Hsub Hnz].
  fold positions in Hsub, Hnz. split; [exact Hsub |]. split.
  - apply Forall_forall. intros p Hp. split.
    + by apply (proj1 (Forall_forall _ _) Hnz).
    + assert (Hs : product_symbol p ∈ map prod_symbol products).
      { apply (sublist_subseteq _ _ Hsub), list_elem_of_In, in_map.
        by apply list_elem_of_In. }
      apply list_elem_of_In, in_map_iff in Hs as (product & <- & Hin).
      by apply (_get_all_usd_products_sound products_response).
  - intros Hnd. by eapply sublist_NoDup.
Qed.

Lemma get_product_mapping_snoc products product :
  get_product_mapping (products ++ [product])
  = <[prod_symbol product := prod_id product]> (get_product_mapping products).
Proof. unfold get_product_mapping. by rewrite fold_left_app. Qed.

(** X18. The product mapping gives a symbol the id of the last product of the
    list that carries the symbol, and nothing to a symbol that no product
    carries. *)
Theorem get_product_mapping_lookup products symbol :
  get_product_mapping products !! symbol
  = prod_id <$> last (filter (fun product => prod_symbol product = symbol) products).
Proof.
  induction products as [| product products IH] using rev_ind; [done |].
  rewrite get_product_mapping_snoc, filter_app.
  destruct (decide (prod_symbol product = symbol)) as [<- | Hne].
  - rewrite lookup_insert_eq, filter_cons_True, filter_nil by done.
    by rewrite last_snoc.
  - rewrite lookup_insert_ne by done.
    rewrite filter_cons_False, filter_nil, app_nil_r by done. exact IH.
Qed.

(** ** The whole cycle *)

Section CycleOutcomes.

Variable pct : Q.
Variable pm : gmap string Z.
Variable oracle : string -> Q.
Variable accepts : Z -> Q -> string -> Side -> bool.
Variable now : string.
Variable json_dump : PositionsData -> string.
Variable json_load : string -> option PositionsData.
Variable fault : nat -> IOStep -> bool.
Variable torn : string -> string.
Variable backup_name : nat -> string.
Variable temp_name : nat -> string.

(** X19. Every stop a run writes has at most five fractional digits: the
    stops of a first run, from the empty store, and the stops of a run over
    a store whose stops have five digits. *)
Theorem stops_stay_five_digits stored l :
  stops_five_digits (reconcile_positions pct pm oracle accepts now ∅ l).1 /\
  (stops_five_digits stored ->
   stops_five_digits (reconcile_positions pct pm oracle accepts now stored l).1).
Proof.
  split.
  - apply reconcile_five_digits. intros s e Hs. by rewrite lookup_empty in Hs.
  - apply reconcile_five_digits.
Qed.

(** X20. [manage_stop_losses] never raises, and what the run did is in the log
    whether the save succeeds or not: the lookups and the orders of the
    reconciliation come first, the events of the save after them.  The
    snapshot file is then what it was, or the dump of the reconciled store,
    or the [.bak] file. *)
Theorem manage_stop_losses_outcome l w :
  pm <> ∅ ->
  exists data evs,
    _load_positions_data json_load {| positions := ∅ |} fault w = (Return data, w) /\
    let r := reconcile_positions pct pm oracle accepts now (positions data) l in
    let final :=
      manage_stop_losses pct pm oracle accepts now json_dump json_load fault
        torn backup_name temp_name l w in
    final.1 = Return tt /\
    events final.2 = events w ++ r.2 ++ evs /\
    (positions_file (files final.2) = positions_file (files w) \/
     (positions_file (files final.2) = Some (json_dump {| positions := r.1 |}) /\
      json_load (json_dump {| positions := r.1 |}) = Some {| positions := r.1 |}) \/
     (is_Some (positions_file_bak (files w)) /\
      positions_file (files final.2) = positions_file_bak (files w))).
Proof.
  intros Hpm. rewrite manage_stop_losses_run. rewrite decide_False by done.
  destruct (load_total json_load {| positions := ∅ |} fault w) as [data Hload].
  rewrite Hload. cbn [fst]. cbv zeta. cbn [fst snd].
  set (r := reconcile_positions pct pm oracle accepts now (positions data) l).
  set (w1 := {| files := files w; events := events w ++ r.2 |}).
  destruct (save_outcome json_dump json_load fault torn backup_name temp_name
              {| positions := r.1 |} w1) as (evs & Hev & Hout).
  exists data, evs. split; [done |]. split; [done |]. split.
  - rewrite Hev. unfold w1. cbn [events]. by rewrite app_assoc.
  - destruct (_save_positions_data _ _ _ _ _ _ _ w1).1 as [[] | e].
    + right. left. by destruct Hout as (_ & ? & ?).
    + by destruct Hout as (_ & _ & ?).
Qed.

(** X21. A cycle hands its result to the next one.  With a product table, no
    failing file operation, a dump that parses back and a snapshot file that
    parses (or none), the run saves in one attempt, and a load after it
    returns exactly the store the reconciliation left. *)
Theorem cycle_persists_reconciled_store l w data :
  pm <> ∅ ->
  (forall step, fault 0 step = false) ->
  (forall content,
     positions_file (files w) = Some content -> is_Some (json_load content)) ->
  _load_positions_data json_load {| positions := ∅ |} fault w = (Return data, w) ->
  let r := reconcile_positions pct pm oracle accepts now (positions data) l in
  json_load (json_dump {| positions := r.1 |}) = Some {| positions := r.1 |} ->
  exists w',
    manage_stop_losses pct pm oracle accepts now json_dump json_load fault torn
      backup_name temp_name l w = (Return tt, w') /\
    events w' = events w ++ r.2 ++ [SaveAttempt 1] /\
    positions_file (files w') = Some (json_dump {| positions := r.1 |}) /\
    _load_positions_data json_load {| positions := ∅ |} fault w'
    = (Return {| positions := r.1 |}, w').
Proof.
  intros Hpm Hok Hvalid Hload r Hdump.
  rewrite manage_stop_losses_run. rewrite decide_False by done.
  rewrite Hload. cbn [fst]. cbv zeta. fold r.
  set (w1 := {| files := files w; events := events w ++ r.2 |}).
  destruct (save_one_attempt json_dump json_load {| positions := ∅ |}
              fault torn backup_name temp_name {| positions := r.1 |} w1)
    as (w' & Hsave & Hev & Hfile & Hback); [done | done | done |].
  rewrite Hsave. cbn [snd]. exists w'. split; [done |].
  split; [| by split]. rewrite Hev. unfold w1. cbn [events].
  by rewrite app_assoc.
Qed.

(** X22. A failed scan of the positions costs the stops.  When the product
    list of the scan comes back empty (a failed request, a body without
    success, one malformed product), the run sees no live position: it
    places no order, and the snapshot it saves tracks nothing, whatever was
    tracked before. *)
Theorem failed_scan_forgets_positions products_response positions_api w :
  pm <> ∅ ->
  (forall step, fault 0 step = false) ->
  json_load (json_dump {| positions := ∅ |}) = Some {| positions := ∅ |} ->
  (forall content,
     positions_file (files w) = Some content -> is_Some (json_load content)) ->
  _get_all_usd_products products_response = [] ->
  exists w',
    manage_stop_losses pct pm oracle accepts now json_dump json_load fault torn
      backup_name temp_name (get_open_positions products_response positions_api) w
    = (Return tt, w') /\
    events w' = events w ++ [SaveAttempt 1] /\
    positions_file (files w') = Some (json_dump {| positions := ∅ |}) /\
    _load_positions_data json_load {| positions := ∅ |} fault w'
    = (Return {| positions := ∅ |}, w').
Proof.
  intros Hpm Hok Hdump Hvalid Hnone.
  unfold get_open_positions. rewrite Hnone. cbn [omap list_omap].
  rewrite manage_stop_losses_run. rewrite decide_False by done.
  cbv zeta. rewrite reconcile_without_live_positions. cbn [fst snd].
  rewrite app_nil_r.
  destruct (save_one_attempt json_dump json_load {| positions := ∅ |}
              fault torn backup_name temp_name {| positions := ∅ |}
              {| files := files w; events := events w |})
    as (w' & Hsave & Hev & Hfile & Hback); [done | done | done |].
  rewrite Hsave. cbn [snd]. by exists w'.
Qed.

End CycleOutcomes.

(** ** Signals *)

Lemma Qle_bool_false a b : Qle_bool a b = false <-> b < a.
Proof. rewrite <- Qgtb_lt. unfold Qgtb. by rewrite negb_true_iff. Qed.

Lemma range_percent_ge_1 h l :
  0 < l -> (1 <= ((h - l) / l) * 100 <-> l * (101 # 100) <= h).
Proof.
  intros Hl.
  assert (E : ((h - l) / l) * 100 == (100 * (h - l)) / l) by (field; lra).
  rewrite E. split.
  - intros H. apply (Qmult_le_compat_r _ _ l) in H; [| lra].
    rewrite Qmult_comm, (Qmult_comm _ l), Qmult_div_r in H by lra. lra.
  - intros H. apply Qle_shift_div_l; [done | lra].
Qed.

(** X23. [_get_signal] answers with a signal exactly when the request succeeds
    with status 200, the first candle of the result has four positive prices
    and its high is at least one percent above its low; the signal is LONG
    when the close is above the open and SHORT otherwise. *)
Theorem get_signal_spec symbol response signal :
  _get_signal symbol response = Some signal <->
  exists data latest_candle rest,
    response = Response 200 (Some data) /\
    candles_success data = true /\
    candles_result data = latest_candle :: rest /\
    0 < high latest_candle /\ 0 < low latest_candle /\
    0 < close latest_candle /\ 0 < open_price latest_candle /\
    low latest_candle * (101 # 100) <= high latest_candle /\
    signal.1 = symbol /\
    (signal.2 = LONG /\ open_price latest_candle < close latest_candle \/
     signal.2 = SHORT /\ close latest_candle <= open_price latest_candle).
Proof.
  split.
  - unfold _get_signal.
    destruct response as [| status_code [data |]]; [done | | by destruct (negb _)].
    destruct (status_code =? 200)%Z eqn:Hst; [| done]. apply Z.eqb_eq in Hst as ->.
    cbn [negb]. destruct (candles_success data) eqn:Hok; [| done]. cbn [negb].
    destruct (candles_result data) as [| candle rest] eqn:Hres; [done |].
    cbn [existsb]. rewrite orb_false_r.
    destruct (Qle_bool (high candle) 0) eqn:Hh; [done |].
    destruct (Qle_bool (low candle) 0) eqn:Hl; [done |].
    destruct (Qle_bool (close candle) 0) eqn:Hc; [done |].
    destruct (Qle_bool (open_price candle) 0) eqn:Ho; [done |]. cbn [orb].
    apply Qle_bool_false in Hh, Hl, Hc, Ho.
    destruct (Qle_bool 1 _) eqn:Hr; [| done].
    apply Qle_bool_iff, range_percent_ge_1 in Hr; [| done].
    intros [= <-]. exists data, candle, rest. cbn [fst snd].
    do 9 (split; [done |]).
    destruct (Qgtb (close candle) (open_price candle)) eqn:Hd.
    + left. split; [done |]. by apply Qgtb_lt.
    + right. split; [done |]. by apply Qgtb_false.
  - intros (data & candle & rest & -> & Hok & Hres & Hh & Hl & Hc & Ho & Hr
            & Hs & Hd).
    unfold _get_signal. cbn [Z.eqb Pos.eqb negb]. rewrite Hok, Hres.
    cbn [negb existsb].
    apply range_percent_ge_1, Qle_bool_iff in Hr; [| done]. rewrite Hr.
    apply Qle_bool_false in Hh, Hl, Hc, Ho. rewrite Hh, Hl, Hc, Ho. cbn [orb].
    destruct signal as [s d]. cbn [fst snd] in Hs, Hd. subst s.
    destruct Hd as [[-> Hd] | [-> Hd]].
    + apply Qgtb_lt in Hd. by rewrite Hd.
    + apply Qgtb_false in Hd. by rewrite Hd.
Qed.

Lemma fold_batches {A B : Type} (f : A -> option B) (l : list A) (bs total d : nat)
    (ks : list nat) : forall acc log,
  fold_left
    (fun '(all_signals, log) i =>
       (all_signals ++ omap f (take bs (drop i l)),
        if (i + bs <? total)%nat then log ++ [Slept d] else log))
    (map (fun k => (k * bs)%nat) ks) (acc, log)
  = (acc ++ omap f (concat (map (fun k => take bs (drop (k * bs) l)) ks)),
     log ++ flat_map (fun k => if (k * bs + bs <? total)%nat then [Slept d] else [])
              ks).
Proof.
  induction ks as [| k ks IH]; intros acc log; cbn [map fold_left concat flat_map].
  - by rewrite !app_nil_r.
  - rewrite IH, omap_app, <- !app_assoc. f_equal.
    by destruct (k * bs + bs <? total)%nat; rewrite <- ?app_assoc.
Qed.

Lemma concat_batches {A : Type} (l : list A) (bs : nat) : forall n a,
  concat (map (fun k => take bs (drop (k * bs) l)) (seq a n))
  = take (n * bs) (drop (a * bs) l).
Proof.
  induction n as [| n IH]; intros a; cbn [seq map concat]; [done |].
  rewrite IH. cbn [Nat.mul]. rewrite <- (take_take_drop _ bs (n * bs)).
  by rewrite drop_drop, (Nat.add_comm _ bs).
Qed.

Lemma flat_map_sleeps (bs total d n : nat) :
  (0 < bs)%nat -> (total <= n * bs)%nat -> (0 < n -> (n - 1) * bs < total)%nat ->
  flat_map (fun k => if (k * bs + bs <? total)%nat then [Slept d] else [])
    (seq 0 n)
  = replicate (n - 1) (Slept d).
Proof.
  intros Hbs Hn Hlast. destruct n as [| n]; [done |].
  replace (S n - 1)%nat with n in * by lia.
  specialize (Hlast ltac:(lia)).
  rewrite seq_S, flat_map_app. cbn [flat_map Nat.add].
  replace (n * bs + bs <? total)%nat with false
    by (symmetry; apply Nat.ltb_ge; cbn [Nat.mul] in Hn; lia).
  rewrite !app_nil_r.
  assert (Hall : forall m, (m <= n)%nat ->
    flat_map (fun k => if (k * bs + bs <? total)%nat then [Slept d] else [])
      (seq 0 m) = replicate m (Slept d)).
  { induction m as [| m IH]; intros Hm; [done |].
    rewrite seq_S, flat_map_app, IH by lia. cbn [flat_map Nat.add].
    replace (m * bs + bs <? total)%nat with true
      by (symmetry; apply Nat.ltb_lt; nia).
    rewrite app_nil_r. by rewrite <- replicate_S_end. }
  by apply Hall.
Qed.

(** X24. Batching does not change the signals: [get_active_signals] returns
    what one pass of [_get_signal] over the whole product list gives, in the
    order of the list, whatever the batch size; and it sleeps once between
    two batches, so one time less than there are batches. *)
Theorem get_active_signals_batching is_aws products_response candles_api :
  let product_list := _get_all_usd_products_signals products_response in
  let total_batches :=
    ((length product_list + batch_size is_aws - 1) / batch_size is_aws)%nat in
  get_active_signals is_aws products_response candles_api
  = (_process_batch candles_api product_list,
     replicate (total_batches - 1) (Slept (batch_delay is_aws))).
Proof.
  intros product_list total_batches. unfold get_active_signals, range_step.
  fold product_list. fold total_batches. unfold _process_batch.
  rewrite (fold_batches _ product_list (batch_size is_aws) (length product_list)
             (batch_delay is_aws) (seq 0 total_batches) [] []).
  cbn [app].
  assert (Hbs : (0 < batch_size is_aws)%nat) by (destruct is_aws; cbn; lia).
  pose proof (Nat.div_mod (length product_list + batch_size is_aws - 1)
                (batch_size is_aws) ltac:(lia)) as Hdiv.
  pose proof (Nat.mod_upper_bound (length product_list + batch_size is_aws - 1)
                (batch_size is_aws) ltac:(lia)) as Hmod.
  fold total_batches in Hdiv.
  f_equal.
  - rewrite concat_batches, drop_0. cbn [Nat.mul].
    by rewrite take_ge by nia.
  - apply flat_map_sleeps; [done | nia |]. intros Hpos.
    destruct total_batches as [| n]; [lia |].
    replace (S n - 1)%nat with n by lia. nia.
Qed.

(** ** The trading system *)

(** X25. The trading balance is never negative: it is what the available
    balance exceeds half of the total balance by, 0 when it does not exceed
    it, and 0 when the wallet cannot be read. *)
Theorem trading_balance_bounds balance_response available_response :
  0 <= get_available_balance balance_response available_response /\
  (get_usd_balance balance_response = None \/
   get_usd_available_balance available_response = None ->
   get_available_balance balance_response available_response = 0) /\
  (forall total available,
     get_usd_balance balance_response = Some total ->
     get_usd_available_balance available_response = Some available ->
     (available <= total * (1 # 2) ->
      get_available_balance balance_response available_response = 0) /\
     (total * (1 # 2) < available ->
      get_available_balance balance_response available_response
      == available - total * (1 # 2))).
Proof.
  unfold get_available_balance.
  destruct (get_usd_balance balance_response) as [total |];
    [| by repeat split; try lra].
  destruct (get_usd_available_balance available_response) as [available |].
  - cbv zeta.
    destruct (Qgtb (total * (5 # 10) - (total - available)) 0) eqn:Hr.
    + apply Qgtb_lt in Hr. split; [lra |]. split; [by intros [|] |].
      intros ? ? [= <-] [= <-]. split; intros; lra.
    + apply Qgtb_false in Hr. split; [lra |]. split; [by intros [|] |].
      intros ? ? [= <-] [= <-]. split; intros; [done | lra].
  - split; [lra |]. split; [done |]. intros ? ? _ [=].
Qed.

Lemma margin_lookup_snoc requirements item :
  margin_lookup (requirements ++ [item])
  = <[item.1 := item.2]> (margin_lookup requirements).
Proof. unfold margin_lookup. by rewrite fold_left_app. Qed.

Lemma margin_lookup_last requirements symbol :
  margin_lookup requirements !! symbol
  = snd <$> last (filter (fun item => item.1 = symbol) requirements).
Proof.
  induction requirements as [| item requirements IH] using rev_ind; [done |].
  rewrite margin_lookup_snoc, filter_app.
  destruct (decide (item.1 = symbol)) as [<- | Hne].
  - rewrite lookup_insert_eq, filter_cons_True, filter_nil by done.
    by rewrite last_snoc.
  - rewrite lookup_insert_ne by done.
    rewrite filter_cons_False, filter_nil, app_nil_r by done. exact IH.
Qed.

Lemma get_trading_opportunities_omap trading_balance signals requirements :
  get_trading_opportunities trading_balance signals (Some requirements)
  = omap (fun signal =>
            match margin_lookup requirements !! signal.1 with
            | Some margin =>
              if Qle_bool margin trading_balance
              then Some {| opp_symbol := signal.1; opp_direction := signal.2;
                           margin_required := margin |}
              else None
            | None => None
            end)
      signals.
Proof.
  unfold get_trading_opportunities. destruct signals as [| signal signals]; [done |].
  destruct requirements as [| item requirements]; [| done].
  change (margin_lookup []) with (∅ : gmap string Q).
  generalize (signal :: signals). intros l.
  induction l as [| x l IH]; [done |]. cbn [omap list_omap].
  by rewrite lookup_empty.
Qed.

Lemma In_get_trading_opportunities trading_balance signals requirements opp :
  In opp (get_trading_opportunities trading_balance signals (Some requirements))
  <->
  In (opp_symbol opp, opp_direction opp) signals /\
  snd <$> last (filter (fun item => item.1 = opp_symbol opp) requirements)
  = Some (margin_required opp) /\
  margin_required opp <= trading_balance.
Proof.
  rewrite get_trading_opportunities_omap, <- list_elem_of_In, list_elem_of_omap.
  rewrite <- margin_lookup_last. split.
  - intros ([s d] & Hin & Hopp). cbn [fst snd] in Hopp.
    destruct (margin_lookup requirements !! s) as [margin |] eqn:Hm; [| done].
    destruct (Qle_bool margin trading_balance) eqn:Hle; [| done].
    injection Hopp as <-. cbn [opp_symbol opp_direction margin_required].
    split; [by apply list_elem_of_In |]. split; [done |]. by apply Qle_bool_iff.
  - intros (Hin & Hm & Hle). exists (opp_symbol opp, opp_direction opp).
    split; [by apply list_elem_of_In |]. cbn [fst snd]. rewrite Hm.
    apply Qle_bool_iff in Hle. rewrite Hle. by destruct opp.
Qed.

(** X26. The trading opportunities are the signals whose symbol has a margin
    requirement, the last one listed for the symbol, that the trading
    balance covers; they carry that margin.  Without margin requirements
    there is no opportunity. *)
Theorem trading_opportunities_spec trading_balance signals :
  get_trading_opportunities trading_balance signals None = [] /\
  forall requirements opp,
    In opp (get_trading_opportunities trading_balance signals (Some requirements))
    <->
    In (opp_symbol opp, opp_direction opp) signals /\
    snd <$> last (filter (fun item => item.1 = opp_symbol opp) requirements)
    = Some (margin_required opp) /\
    margin_required opp <= trading_balance.
Proof.
  split; [by destruct signals |]. intros requirements opp.
  apply In_get_trading_opportunities.
Qed.

Lemma string_length_app (s t : string) :
  String.length (s ++ t) = (String.length s + String.length t)%nat.
Proof. induction s as [| a s IH]; simpl; [done | by rewrite IH]. Qed.

Lemma string_app_inj_r (t s s' : string) :
  (s ++ t)%string = (s' ++ t)%string -> s = s'.
Proof.
  revert s'. induction s as [| a s IH]; intros [| b s'] Heq.
  - done.
  - apply (f_equal String.length) in Heq. rewrite !string_length_app in Heq.
    simpl in Heq. lia.
  - apply (f_equal String.length) in Heq. rewrite !string_length_app in Heq.
    simpl in Heq. lia.
  - simpl in Heq. injection Heq as -> Heq. by rewrite (IH _ Heq).
Qed.

Lemma position_key_direction (s s' : string) :
  (s ++ "_LONG")%string <> (s' ++ "_SHORT")%string.
Proof.
  revert s'. induction s as [| a s IH]; intros [| b s'] Heq; simpl in Heq.
  - discriminate.
  - injection Heq as _ Heq. apply (f_equal String.length) in Heq.
    rewrite string_length_app in Heq. simpl in Heq. lia.
  - injection Heq as _ Heq. destruct s as [| c s]; [discriminate |].
    apply (f_equal String.length) in Heq. simpl in Heq.
    rewrite string_length_app in Heq. simpl in Heq. lia.
  - injection Heq as _ Heq. by apply (IH s').
Qed.

Lemma position_key_inj s d s' d' :
  position_key s d = position_key s' d' -> s = s' /\ d = d'.
Proof.
  unfold position_key. intros Heq.
  destruct d, d'; cbn [direction_name] in Heq.
  - split; [| done]. by apply (string_app_inj_r _ _ _ Heq).
  - by apply position_key_direction in Heq.
  - symmetry in Heq. by apply position_key_direction in Heq.
  - split; [| done]. by apply (string_app_inj_r _ _ _ Heq).
Qed.

Lemma get_existing_positions_snoc positions position :
  get_existing_positions (positions ++ [position])
  = if Qeq_bool (position_size position) 0 then get_existing_positions positions
    else <[position_key (product_symbol position)
             (if Qgtb (position_size position) 0 then LONG else SHORT)
           := if Qgtb (position_size position) 0 then LONG else SHORT]>
           (get_existing_positions positions).
Proof. unfold get_existing_positions. by rewrite fold_left_app. Qed.

Lemma get_existing_positions_None positions symbol direction :
  get_existing_positions positions !! position_key symbol direction = None <->
  forall p, In p positions -> product_symbol p = symbol ->
    match direction with
    | LONG => position_size p <= 0
    | SHORT => 0 <= position_size p
    end.
Proof.
  induction positions as [| position positions IH] using rev_ind.
  - split; [by intros _ p [] | done].
  - rewrite get_existing_positions_snoc.
    assert (Hsplit : forall P : OpenPosition -> Prop,
      (forall p, In p (positions ++ [position]) -> P p) <->
      (forall p, In p positions -> P p) /\ P position).
    { intros P. split.
      - intros H. split; [intros p Hp | ]; apply H, in_app_iff; [by left |].
        right. by left.
      - intros [H1 H2] p [Hp | [<- | []]]%in_app_iff; [by apply H1 | done]. }
    rewrite (Hsplit (fun p => product_symbol p = symbol -> _)), <- IH.
    destruct (Qeq_bool (position_size position) 0) eqn:Hz.
    + apply Qeq_bool_iff in Hz. split; [| by intros [H _]].
      intros H. split; [done |]. intros _. destruct direction; lra.
    + assert (Hnz : ~ position_size position == 0).
      { intros Hq. apply Qeq_bool_iff in Hq. congruence. }
      destruct (decide (position_key (product_symbol position)
                          (if Qgtb (position_size position) 0 then LONG else SHORT)
                        = position_key symbol direction)) as [Heq | Hne].
      * rewrite Heq, lookup_insert_eq. apply position_key_inj in Heq as [Hs Hd].
        split; [done |]. intros [_ H]. specialize (H Hs).
        destruct (Qgtb (position_size position) 0) eqn:Hg; subst direction.
        -- apply Qgtb_lt in Hg. lra.
        -- apply Qgtb_false in Hg. lra.
      * rewrite lookup_insert_ne by done. split; [| by intros [H _]].
        intros H. split; [done |]. intros Hs. subst symbol.
        destruct (Qgtb (position_size position) 0) eqn:Hg, direction;
          try congruence.
        -- apply Qgtb_lt in Hg. lra.
        -- apply Qgtb_false in Hg. lra.
Qed.

Lemma order_size_of_pos symbol : Qgtb (order_size_of symbol) 0 = true.
Proof. unfold order_size_of. by repeat case_decide. Qed.

Lemma place_opportunity_Some product_mapping exchange_accepts opp ev :
  place_opportunity product_mapping exchange_accepts opp = Some ev <->
  exists product_id,
    product_mapping !! opp_symbol opp = Some (Some product_id) /\
    product_id <> 0%Z /\
    ev = OrderPlaced (opp_symbol opp) product_id (order_size_of (opp_symbol opp))
           "market_order" (side_of (opp_direction opp))
           ((0 <? product_id)%Z
            && exchange_accepts product_id (order_size_of (opp_symbol opp))
                 "market_order" (side_of (opp_direction opp))).
Proof.
  unfold place_opportunity, place_order. rewrite order_size_of_pos.
  cbn [negb]. rewrite bool_decide_eq_true_2 by done. cbn [orb negb].
  split.
  - destruct (product_mapping !! opp_symbol opp) as [[product_id |] |]; try done.
    destruct (product_id =? 0)%Z eqn:Hz; [done |]. apply Z.eqb_neq in Hz.
    intros [= <-]. exists product_id. split; [done |]. split; [done |].
    by destruct (0 <? product_id)%Z.
  - intros (product_id & -> & Hz & ->). apply Z.eqb_neq in Hz. rewrite Hz.
    by destruct (0 <? product_id)%Z.
Qed.

Lemma length_omap_le {A B : Type} (f : A -> option B) (l : list A) :
  (length (omap f l) <= length l)%nat.
Proof.
  induction l as [| x l IH]; [done |].
  change (x :: l) with ([x] ++ l). rewrite omap_app, length_app.
  change (length ([x] ++ l)) with (S (length l)).
  assert (length (omap f [x]) <= 1)%nat by (cbn; destruct (f x); cbn; lia).
  lia.
Qed.

Lemma In_execute_trades product_mapping positions exchange_accepts
    opportunities ev :
  In ev (execute_trades product_mapping positions exchange_accepts opportunities)
  <->
  exists opp product_id,
    In opp opportunities /\
    product_mapping !! opp_symbol opp = Some (Some product_id) /\
    product_id <> 0%Z /\
    (forall p, In p positions -> product_symbol p = opp_symbol opp ->
       match opp_direction opp with
       | LONG => position_size p <= 0
       | SHORT => 0 <= position_size p
       end) /\
    ev = OrderPlaced (opp_symbol opp) product_id (order_size_of (opp_symbol opp))
           "market_order" (side_of (opp_direction opp))
           ((0 <? product_id)%Z
            && exchange_accepts product_id (order_size_of (opp_symbol opp))
                 "market_order" (side_of (opp_direction opp))).
Proof.
  unfold execute_trades. destruct (decide (product_mapping = ∅)) as [-> | Hpm].
  - split; [done |]. intros (opp & product_id & _ & Hl & _).
    by rewrite lookup_empty in Hl.
  - cbv zeta. rewrite <- list_elem_of_In, list_elem_of_omap. split.
    + intros (opp & [Hfree Hin]%list_elem_of_filter & Hev).
      apply place_opportunity_Some in Hev as (product_id & Hl & Hz & ->).
      exists opp, product_id. split; [by apply list_elem_of_In |].
      split; [done |]. split; [done |]. split; [| done].
      by apply get_existing_positions_None.
    + intros (opp & product_id & Hin & Hl & Hz & Hfree & ->). exists opp. split.
      * apply list_elem_of_filter. split; [| by apply list_elem_of_In].
        by apply get_existing_positions_None.
      * apply place_opportunity_Some. by exists product_id.
Qed.

(** X27. [execute_trades] places an order for exactly those opportunities
    whose symbol has a product id and of which no live position of the same
    symbol already goes the same way: a market order of 2, 4 or 6 lots by
    symbol, a buy for LONG and a sell for SHORT.  An order for a negative
    product id is answered as failed without a request.  There are never
    more orders than opportunities. *)
Theorem execute_trades_orders product_mapping positions exchange_accepts
    opportunities :
  (length (execute_trades product_mapping positions exchange_accepts
             opportunities) <= length opportunities)%nat /\
  forall ev,
    In ev (execute_trades product_mapping positions exchange_accepts
             opportunities)
    <->
    exists opp product_id,
      In opp opportunities /\
      product_mapping !! opp_symbol opp = Some (Some product_id) /\
      product_id <> 0%Z /\
      (forall p, In p positions -> product_symbol p = opp_symbol opp ->
         match opp_direction opp with
         | LONG => position_size p <= 0
         | SHORT => 0 <= position_size p
         end) /\
      ev = OrderPlaced (opp_symbol opp) product_id
             (order_size_of (opp_symbol opp)) "market_order"
             (side_of (opp_direction opp))
             ((0 <? product_id)%Z
              && exchange_accepts product_id (order_size_of (opp_symbol opp))
                   "market_order" (side_of (opp_direction opp))).
Proof.
  split; [| intros ev; apply In_execute_trades].
  unfold execute_trades. destruct (decide (product_mapping = ∅)); [cbn; lia |].
  cbv zeta.
  etransitivity; [apply length_omap_le |]. apply length_filter.
Qed.

(** X28. An order of the trading system is backed by a signal and by the
    balance: the wallet was read, the available balance exceeds half of the
    total balance, the one-lot margin of the symbol fits into the excess,
    and no live position of the symbol goes the way of the signal. *)
Theorem trading_run_orders balance_response available_response signals
    margin_requirements product_mapping positions exchange_accepts
    symbol product_id order_size order_type side success :
  In (OrderPlaced symbol product_id order_size order_type side success)
    (trading_run balance_response available_response signals margin_requirements
       product_mapping positions exchange_accepts) ->
  exists total available requirements direction margin,
    get_usd_balance balance_response = Some total /\
    get_usd_available_balance available_response = Some available /\
    margin_requirements = Some requirements /\
    In (symbol, direction) signals /\
    snd <$> last (filter (fun item => item.1 = symbol) requirements) = Some margin /\
    margin <= available - total * (1 # 2) /\
    product_mapping !! symbol = Some (Some product_id) /\
    (forall p, In p positions -> product_symbol p = symbol ->
       match direction with
       | LONG => position_size p <= 0
       | SHORT => 0 <= position_size p
       end) /\
    order_size = order_size_of symbol /\
    order_type = "market_order"%string /\
    side = side_of direction.
Proof.
  unfold trading_run. cbv zeta.
  destruct (Qle_bool (get_available_balance _ _) 0) eqn:Hb; [done |].
  apply Qle_bool_false in Hb.
  assert (Hbal : exists total available,
    get_usd_balance balance_response = Some total /\
    get_usd_available_balance available_response = Some available /\
    get_available_balance balance_response available_response
    == available - total * (1 # 2)).
  { unfold get_available_balance in *.
    destruct (get_usd_balance balance_response) as [total |]; [| lra].
    destruct (get_usd_available_balance available_response) as [available |];
      [| lra].
    cbv zeta in *. destruct (Qgtb _ 0); [| lra].
    exists total, available. split; [done |]. split; [done |]. lra. }
  destruct Hbal as (total & available & Ht & Ha & Hpos).
  intros Hin.
  assert (Hin' : In (OrderPlaced symbol product_id order_size order_type side success)
    (execute_trades product_mapping positions exchange_accepts
       (get_trading_opportunities
          (get_available_balance balance_response available_response)
          signals margin_requirements))).
  { destruct (get_trading_opportunities _ _ _); [done | exact Hin]. }
  clear Hin.
  apply In_execute_trades in Hin' as (opp & pid & Hopp & Hl & Hz & Hfree & Hev).
  injection Hev as -> -> -> -> -> ->.
  destruct margin_requirements as [requirements |];
    [| by destruct signals].
  apply In_get_trading_opportunities in Hopp as (Hsig & Hm & Hle).
  exists total, available, requirements, (opp_direction opp), (margin_required opp).
  do 5 (split; [done |]). split; [by rewrite <- Hpos |]. done.
Qed.

(** ** Worked runs of the store, the fetcher and the trading system *)

(** A save of a new document over the sample files, without faults. *)
Lemma save_returns_saved_witness :
  let saved :=
    _save_positions_data text_dump text_load no_fault torn_empty
      sample_backup_name sample_temp_name "{new}"%string (start sample_files) in
  positions_file (files saved.2) = Some (text_dump "{new}") /\
  text_load (text_dump "{new}") = Some "{new}"%string /\
  (no_fault 0%nat OpenLoad = false ->
   _load_positions_data text_load "{}"%string no_fault saved.2
   = (Return "{new}"%string, saved.2)).
Proof.
  apply (save_returns_saved text_dump text_load "{}"%string no_fault torn_empty
           sample_backup_name sample_temp_name "{new}"%string
           (start sample_files)).
  vm_compute. reflexivity.
Defined.

(** A document the text codec cannot read back: it does not open with a
    brace. *)
Lemma save_rejects_unfaithful_dump_witness :
  let saved :=
    _save_positions_data text_dump text_load no_fault torn_empty
      sample_backup_name sample_temp_name "new"%string (start sample_files) in
  saved.1 = Raise (Error "Failed to save positions data after all retries") /\
  (positions_file (files saved.2) = positions_file (files (start sample_files)) \/
   (is_Some (positions_file_bak (files (start sample_files))) /\
    positions_file (files saved.2)
    = positions_file_bak (files (start sample_files)))).
Proof.
  apply (save_rejects_unfaithful_dump text_dump text_load no_fault torn_empty
           sample_backup_name sample_temp_name "new"%string
           (start sample_files)).
  vm_compute. discriminate.
Defined.

(** The save of [save_then_load], through the general statement. *)
Lemma save_then_load_round_trip_witness :
  exists w',
    _save_positions_data text_dump text_load no_fault torn_empty
      sample_backup_name sample_temp_name "{new}"%string (start sample_files)
    = (Return tt, w') /\
    events w' = events (start sample_files) ++ [SaveAttempt 1] /\
    positions_file (files w') = Some (text_dump "{new}") /\
    positions_file_bak (files w')
    = positions_file_bak (files (start sample_files)) /\
    temp_dir (files w') = ∅ /\
    backup_dir (files w')
    = prune_backups
        match positions_file (files (start sample_files)) ≫= text_load with
        | Some old =>
          <[sample_backup_name 0 := text_dump old]>
            (backup_dir (files (start sample_files)))
        | None => backup_dir (files (start sample_files))
        end /\
    _load_positions_data text_load "{}"%string no_fault w'
    = (Return "{new}"%string, w').
Proof.
  apply (save_then_load_round_trip text_dump text_load "{}"%string no_fault
           torn_empty sample_backup_name sample_temp_name "{new}"%string
           (start sample_files)).
  - intros step. reflexivity.
  - reflexivity.
  - intros content H. vm_compute in H. injection H as <-. eexists. reflexivity.
Defined.

(** BTCUSD is stored and live, and stays. *)
Lemma reconcile_keeps_live_only_witness :
  In "BTCUSD"%string (map product_symbol [sample_long_position]).
Proof.
  apply (reconcile_keeps_live_only 2 sample_mapping (price_of 105) exchange_fills
           sample_now sample_store [sample_long_position] "BTCUSD").
  vm_compute. eexists. reflexivity.
Defined.

(** The stored long entry, stop 98, at a price of 110: the stop goes up to
    108 and the count to 1; the entry price and the size stay. *)
Lemma reconcile_entry_changes_witness :
  let e' := {| entry_price := 100; current_price := 110;
               stop_loss := 10800000 # 100000; size := 1;
               stop_loss_updates := 1; last_update := sample_now |} in
  entry_price e' = entry_price sample_long_entry /\
  size e' = size sample_long_entry /\
  ((stop_loss e' = stop_loss sample_long_entry /\
    stop_loss_updates e' = stop_loss_updates sample_long_entry /\
    last_update e' = last_update sample_long_entry) \/
   (_should_update_stop_loss 2 (price_of 110 (product_symbol sample_long_position))
      (stop_loss sample_long_entry) (entry_price sample_long_entry)
      (position_size sample_long_position) = true /\
    stop_loss e'
    = _calculate_stop_loss 2 (price_of 110 (product_symbol sample_long_position))
        (entry_price sample_long_entry) (position_size sample_long_position) /\
    stop_loss_updates e' = (stop_loss_updates sample_long_entry + 1)%Z /\
    last_update e' = sample_now)).
Proof.
  apply (reconcile_entry_changes 2 sample_mapping (price_of 110) exchange_fills
           sample_now sample_store [sample_long_position] sample_long_position
           sample_long_entry).
  - apply NoDup_one_symbol.
  - left. reflexivity.
  - reflexivity.
  - vm_compute. reflexivity.
Defined.

(** The stored long entry, stop 98, at a price of 97: one sell order of the
    full size, and the entry is gone. *)
Lemma breached_position_closed_witness :
  (reconcile_positions 2 sample_mapping (price_of 97) exchange_fills sample_now
     sample_store [sample_long_position]).1
    !! product_symbol sample_long_position = None /\
  filter (fun ev => is_order_for (product_symbol sample_long_position) ev = true)
    (reconcile_positions 2 sample_mapping (price_of 97) exchange_fills sample_now
       sample_store [sample_long_position]).2
  = [OrderPlaced (product_symbol sample_long_position) 27
       (Qabs (position_size sample_long_position)) "market_order"
       (if Qgtb (position_size sample_long_position) 0 then sell else buy) true].
Proof.
  apply (breached_position_closed 2 sample_mapping (price_of 97) exchange_fills
           sample_now sample_store [sample_long_position] sample_long_position
           sample_long_entry 27).
  - apply NoDup_one_symbol.
  - left. reflexivity.
  - reflexivity.
  - reflexivity.
  - reflexivity.
  - vm_compute. discriminate.
  - left. split; reflexivity || (vm_compute; discriminate).
  - reflexivity.
Defined.

(** The order of the same run. *)
Lemma orders_follow_breaches_witness :
  "market_order"%string = "market_order"%string /\
  sample_mapping !! "BTCUSD"%string = Some 27%Z /\
  exists p e,
    In p [sample_long_position] /\ product_symbol p = "BTCUSD"%string /\
    sample_store !! "BTCUSD"%string = Some e /\
    1 = Qabs (position_size p) /\
    ((0 < position_size p /\ sell = sell /\
      price_of 97 "BTCUSD"%string <= stop_loss e) \/
     (position_size p <= 0 /\ sell = buy /\
      stop_loss e <= price_of 97 "BTCUSD"%string)).
Proof.
  apply (orders_follow_breaches 2 sample_mapping (price_of 97) exchange_fills
           sample_now sample_store [sample_long_position] "BTCUSD" 27 1
           "market_order" sell true).
  - apply NoDup_one_symbol.
  - vm_compute. right. left. reflexivity.
Defined.

(** SOLUSD is live and has no product id. *)
Lemma unmapped_symbol_skipped_witness :
  let sol := {| product_symbol := "SOLUSD"; position_entry_price := 20;
                position_size := 3 |} in
  (reconcile_positions 2 sample_mapping (price_of 21) exchange_fills sample_now
     sample_store [sample_long_position; sol]).1 !! "SOLUSD"%string
  = sample_store !! "SOLUSD"%string /\
  no_order_for "SOLUSD"
    (reconcile_positions 2 sample_mapping (price_of 21) exchange_fills sample_now
       sample_store [sample_long_position; sol]).2 /\
  forall price,
    ~ In (PriceLookup "SOLUSD" price)
        (reconcile_positions 2 sample_mapping (price_of 21) exchange_fills
           sample_now sample_store [sample_long_position; sol]).2.
Proof.
  apply (unmapped_symbol_skipped 2 sample_mapping (price_of 21) exchange_fills
           sample_now sample_store
           [sample_long_position;
            {| product_symbol := "SOLUSD"; position_entry_price := 20;
               position_size := 3 |}] "SOLUSD").
  - right. left. reflexivity.
  - left. reflexivity.
Defined.

Lemma NoDup_two_symbols :
  NoDup (map product_symbol [sample_long_position; sample_eth_position]).
Proof.
  apply NoDup_cons. split.
  - intros H. apply list_elem_of_singleton in H. discriminate H.
  - apply NoDup_singleton.
Defined.

(** BTCUSD alone, and BTCUSD beside ETHUSD over a store that tracks both. *)
Lemma reconcile_symbol_independent_witness :
  (reconcile_positions 2 sample_mapping (price_of 110) exchange_fills sample_now
     sample_store [sample_long_position]).1 !! product_symbol sample_long_position
  = (reconcile_positions 2 sample_mapping (price_of 110) exchange_fills
       sample_now (<["ETHUSD"%string := sample_trailed_entry]> sample_store)
       [sample_long_position; sample_eth_position]).1
      !! product_symbol sample_long_position /\
  filter (fun ev => is_order_for (product_symbol sample_long_position) ev = true)
    (reconcile_positions 2 sample_mapping (price_of 110) exchange_fills sample_now
       sample_store [sample_long_position]).2
  = filter (fun ev => is_order_for (product_symbol sample_long_position) ev = true)
      (reconcile_positions 2 sample_mapping (price_of 110) exchange_fills
         sample_now (<["ETHUSD"%string := sample_trailed_entry]> sample_store)
         [sample_long_position; sample_eth_position]).2.
Proof.
  apply (reconcile_symbol_independent 2 sample_mapping (price_of 110)
           exchange_fills sample_now sample_store
           (<["ETHUSD"%string := sample_trailed_entry]> sample_store)
           [sample_long_position] [sample_long_position; sample_eth_position]
           sample_long_position).
  - apply NoDup_one_symbol.
  - apply NoDup_two_symbols.
  - left. reflexivity.
  - left. reflexivity.
  - vm_compute. reflexivity.
Defined.

(** A long from 100 at 2 percent, the stop at 98 and the price at 110. *)
Lemma stop_test_agrees_with_formula_witness :
  let accepted := _should_update_stop_loss 2 110 98 100 1 in
  let new_stop := _calculate_stop_loss 2 110 100 1 in
  (0 < 1 ->
   (accepted = true -> 98 <= new_stop) /\ (accepted = false -> new_stop <= 98)) /\
  (1 <= 0 ->
   (accepted = true -> new_stop <= 98) /\ (accepted = false -> 98 <= new_stop)).
Proof.
  apply (stop_test_agrees_with_formula 2 110 98 100 1).
  exists 9800000%Z. reflexivity.
Defined.

(** BTCUSD in the sample product list. *)
Lemma usd_products_listed_witness :
  In {| prod_id := Some 27%Z; prod_symbol := "BTCUSD" |}
    (_get_all_usd_products (Response 200 (Some sample_products_body))) <->
  In (ProductDict (Some 27%Z) (SymbolStr "BTCUSD")) sample_products /\
  exists pre, "BTCUSD"%string = (pre ++ "USD")%string.
Proof.
  apply (usd_products_listed 200 sample_products_body sample_products
           {| prod_id := Some 27%Z; prod_symbol := "BTCUSD" |}).
  - reflexivity.
  - reflexivity.
  - intros raw_id H. simpl in H. intuition discriminate.
Defined.

(** The sample list with one product whose symbol is [null]. *)
Lemma malformed_symbol_empties_products_witness :
  _get_all_usd_products (Response 200 (Some malformed_products_body)) = [] /\
  _get_all_usd_products_signals (Response 200 (Some malformed_products_body)) = [].
Proof.
  apply (malformed_symbol_empties_products 200 malformed_products_body
           (sample_products ++ [ProductDict (Some 5%Z) SymbolNotStr]) (Some 5%Z)).
  - reflexivity.
  - simpl. intuition.
Defined.

Lemma sample_mapping_not_empty : sample_mapping <> ∅.
Proof.
  intros H. apply (f_equal (fun m => m !! "BTCUSD"%string)) in H.
  vm_compute in H. discriminate H.
Defined.

(** A run over the tracked snapshot at a price of 97: the stop of 100 is
    breached. *)
Lemma manage_stop_losses_outcome_witness :
  exists data evs,
    _load_positions_data cycle_load {| positions := ∅ |} no_fault
      (start tracked_files) = (Return data, start tracked_files) /\
    let r :=
      reconcile_positions 2 sample_mapping (price_of 97) exchange_fills
        sample_now (positions data) [sample_long_position] in
    let final :=
      manage_stop_losses 2 sample_mapping (price_of 97) exchange_fills sample_now
        cycle_dump cycle_load no_fault torn_empty sample_backup_name
        sample_temp_name [sample_long_position] (start tracked_files) in
    final.1 = Return tt /\
    events final.2 = events (start tracked_files) ++ r.2 ++ evs /\
    (positions_file (files final.2) = positions_file (files (start tracked_files)) \/
     (positions_file (files final.2) = Some (cycle_dump {| positions := r.1 |}) /\
      cycle_load (cycle_dump {| positions := r.1 |}) = Some {| positions := r.1 |}) \/
     (is_Some (positions_file_bak (files (start tracked_files))) /\
      positions_file (files final.2)
      = positions_file_bak (files (start tracked_files)))).
Proof.
  apply (manage_stop_losses_outcome 2 sample_mapping (price_of 97) exchange_fills
           sample_now cycle_dump cycle_load no_fault torn_empty
           sample_backup_name sample_temp_name [sample_long_position]
           (start tracked_files)).
  apply sample_mapping_not_empty.
Defined.

(** A run over the tracked snapshot at a price of 102, which moves nothing:
    the next load returns the tracked store. *)
Lemma cycle_persists_reconciled_store_witness :
  let r :=
    reconcile_positions 2 sample_mapping (price_of 102) exchange_fills sample_now
      (positions sample_tracked) [sample_long_position] in
  exists w',
    manage_stop_losses 2 sample_mapping (price_of 102) exchange_fills sample_now
      cycle_dump cycle_load no_fault torn_empty sample_backup_name
      sample_temp_name [sample_long_position] (start tracked_files)
    = (Return tt, w') /\
    events w' = events (start tracked_files) ++ r.2 ++ [SaveAttempt 1] /\
    positions_file (files w') = Some (cycle_dump {| positions := r.1 |}) /\
    _load_positions_data cycle_load {| positions := ∅ |} no_fault w'
    = (Return {| positions := r.1 |}, w').
Proof.
  apply (cycle_persists_reconciled_store 2 sample_mapping (price_of 102)
           exchange_fills sample_now cycle_dump cycle_load no_fault torn_empty
           sample_backup_name sample_temp_name [sample_long_position]
           (start tracked_files) sample_tracked).
  - apply sample_mapping_not_empty.
  - intros step. reflexivity.
  - intros content H. vm_compute in H. injection H as <-. eexists. reflexivity.
  - vm_compute. reflexivity.
  - vm_compute. reflexivity.
Defined.

(** The request for the products of the scan fails while BTCUSD is tracked. *)
Lemma failed_scan_forgets_positions_witness :
  exists w',
    manage_stop_losses 2 sample_mapping (price_of 102) exchange_fills sample_now
      cycle_dump cycle_load no_fault torn_empty sample_backup_name
      sample_temp_name
      (get_open_positions RequestFails (fun _ => RequestFails))
      (start tracked_files)
    = (Return tt, w') /\
    events w' = events (start tracked_files) ++ [SaveAttempt 1] /\
    positions_file (files w') = Some (cycle_dump {| positions := ∅ |}) /\
    _load_positions_data cycle_load {| positions := ∅ |} no_fault w'
    = (Return {| positions := ∅ |}, w').
Proof.
  apply (failed_scan_forgets_positions 2 sample_mapping (price_of 102)
           exchange_fills sample_now cycle_dump cycle_load no_fault torn_empty
           sample_backup_name sample_temp_name RequestFails
           (fun _ => RequestFails) (start tracked_files)).
  - apply sample_mapping_not_empty.
  - intros step. reflexivity.
  - vm_compute. reflexivity.
  - intros content H. vm_compute in H. injection H as <-. eexists. reflexivity.
  - reflexivity.
Defined.

(** The signal for BTCUSD, a wallet of 100 with 80 available and a margin
    of 12.5: a buy order of 6 lots, while ETHUSD is held short. *)
Lemma trading_run_orders_witness :
  exists total available requirements direction margin,
    get_usd_balance sample_wallet = Some total /\
    get_usd_available_balance sample_wallet = Some available /\
    Some sample_margins = Some requirements /\
    In ("BTCUSD"%string, direction) sample_signals /\
    snd <$> last (filter (fun item => item.1 = "BTCUSD"%string) requirements)
    = Some margin /\
    margin <= available - total * (1 # 2) /\
    sample_product_ids !! "BTCUSD"%string = Some (Some 27%Z) /\
    (forall p, In p [sample_eth_position] -> product_symbol p = "BTCUSD"%string ->
       match direction with
       | LONG => position_size p <= 0
       | SHORT => 0 <= position_size p
       end) /\
    6 = order_size_of "BTCUSD" /\
    "market_order"%string = "market_order"%string /\
    buy = side_of direction.
Proof.
  apply (trading_run_orders sample_wallet sample_wallet sample_signals
           (Some sample_margins) sample_product_ids [sample_eth_position]
           exchange_fills "BTCUSD" 27 6 "market_order" buy true).
  vm_compute. left. reflexivity.
Defined.
